(** * Paycio: the Konva text editor component

    A shallow embedding of the React component [KonvaTextEditor], which the
    repository holds in two variants:

    - [src/src/App.tsx]            (module [App] below)
    - [src/unnamed/part_000]       (module [Part000] below)

    The component keeps seven [useState] cells and a few refs.  Every event
    handler reads the cells of the render it was created in and queues
    [setX(...)] calls; React then applies the queue, renders again and runs
    the effect that depends on [textNodes] (the history recorder) when
    [setTextNodes] was called.  The embedding follows that shape: a handler
    is a function from the rendered state and the event to a list of queued
    actions, [commit] applies the queue, and [dispatch] adds the effect.

    Modelling choices:
    - a JS [number] is an exact rational in canonical form ([Qc]); rounding,
      NaN and the infinities are outside the model;
    - [Date.now()] is an input of the "Add Text" event;
    - what the handlers read from the Konva event target ([id()], [x()],
      [scaleX()], ...) and from the overlay input ([textInputRef.current
      ?.value]) are inputs of the event; the writes to the Konva scene graph
      and to the style of the DOM input are not part of the state;
    - the controls of the page restrict some of these inputs: the slider
      delivers sizes from 10 to 72 ([slider_value]), and the overlay input
      of [part_000] holds the edit buffer ([Page], [page_step]);
    - [JSON.parse(JSON.stringify(nodes))] copies a node list, and two node
      lists have the same [JSON.stringify] exactly when they are equal field
      by field (every node is built by [addTextNode] and updated by object
      spread, so the keys always come in one order). *)

From Stdlib Require Import String Ascii Bool ZArith QArith Qcanon Lia.
From Stdlib Require Import DecimalString List.
From Stdlib Require DecimalPos DecimalZ.
Import ListNotations.

Local Open Scope string_scope.
Local Open Scope Z_scope.
Local Open Scope list_scope.

(** ** JavaScript values *)

Definition number := Qc.

Definition num (z : Z) : number := Q2Qc (inject_Z z).

Definition number_eqb (a b : number) : bool := Qeq_bool a b.

(** [Math.max(a, b)] *)
Definition Math_max (a b : number) : number :=
  if Qle_bool a b then b else a.

(** [Date.now().toString()] *)
Definition toString (now : Z) : string :=
  NilZero.string_of_int (Z.to_int now).

(** [arr[i]]: [undefined] (here [None]) outside the array *)
Definition index {A : Type} (arr : list A) (i : Z) : option A :=
  if i <? 0 then None else nth_error arr (Z.to_nat i).

(** [arr.slice(0, e)]: a negative end counts from the length *)
Definition slice0 {A : Type} (arr : list A) (e : Z) : list A :=
  if e <? 0 then firstn (Z.to_nat (Z.of_nat (List.length arr) + e)) arr
  else firstn (Z.to_nat e) arr.

(** [arr.find(pred)] is [List.find]; [arr.some(pred)] is [existsb]. *)

Definition option_eqb {A : Type} (eqb : A -> A -> bool) (a b : option A) : bool :=
  match a, b with
  | Some u, Some v => eqb u v
  | None, None => true
  | _, _ => false
  end.

(** ** interface TextNode *)

Record TextNode : Type := mkTextNode {
  id : string;
  x : number;
  y : number;
  text : string;
  fontSize : number;
  fontColor : string;
  width : option number;
  height : option number;
  isEditing : option bool
}.

Definition TextNode_eqb (a b : TextNode) : bool :=
  (id a =? id b)%string && number_eqb (x a) (x b) && number_eqb (y a) (y b)
  && (text a =? text b)%string && number_eqb (fontSize a) (fontSize b)
  && (fontColor a =? fontColor b)%string
  && option_eqb number_eqb (width a) (width b)
  && option_eqb number_eqb (height a) (height b)
  && option_eqb Bool.eqb (isEditing a) (isEditing b).

Fixpoint nodes_eqb (a b : list TextNode) : bool :=
  match a, b with
  | [], [] => true
  | u :: a', v :: b' => TextNode_eqb u v && nodes_eqb a' b'
  | _, _ => false
  end.

(** [isEqual(a, b)]: [JSON.stringify(a) === JSON.stringify(b)].  The first
    argument is [history[historyIndex]], which may be [undefined]; then
    [JSON.stringify] gives [undefined], which is not [===] to a string. *)
Definition isEqual (a : option (list TextNode)) (b : list TextNode) : bool :=
  match a with
  | Some nodes => nodes_eqb nodes b
  | None => false
  end.

(** [cloneDeep(nodes)]: [JSON.parse(JSON.stringify(nodes))] *)
Definition cloneDeep (nodes : list TextNode) : list TextNode := nodes.

(** Object spreads [{ ...node, k: v, ... }] used by the handlers. *)

Definition spread_xy (node : TextNode) (nx ny : number) : TextNode :=
  {| id := id node; x := nx; y := ny; text := text node;
     fontSize := fontSize node; fontColor := fontColor node;
     width := width node; height := height node;
     isEditing := isEditing node |}.

Definition spread_transform (node : TextNode) (nx ny fs w h : number) : TextNode :=
  {| id := id node; x := nx; y := ny; text := text node;
     fontSize := fs; fontColor := fontColor node;
     width := Some w; height := Some h;
     isEditing := isEditing node |}.

Definition spread_isEditing (node : TextNode) (b : bool) : TextNode :=
  {| id := id node; x := x node; y := y node; text := text node;
     fontSize := fontSize node; fontColor := fontColor node;
     width := width node; height := height node;
     isEditing := Some b |}.

Definition spread_commit (node : TextNode) (t c : string) (fs : number) : TextNode :=
  {| id := id node; x := x node; y := y node; text := t;
     fontSize := fs; fontColor := c;
     width := width node; height := height node;
     isEditing := Some false |}.

Definition spread_fontSize (node : TextNode) (fs : number) : TextNode :=
  {| id := id node; x := x node; y := y node; text := text node;
     fontSize := fs; fontColor := fontColor node;
     width := width node; height := height node;
     isEditing := isEditing node |}.

Definition spread_fontColor (node : TextNode) (c : string) : TextNode :=
  {| id := id node; x := x node; y := y node; text := text node;
     fontSize := fontSize node; fontColor := c;
     width := width node; height := height node;
     isEditing := isEditing node |}.

(** [Partial<TextNode>], the second argument of [updateTextNode] in
    [App.tsx]; only these four keys are ever passed. *)
Record Partial : Type := mkPartial {
  p_text : option string;
  p_fontColor : option string;
  p_fontSize : option number;
  p_isEditing : option bool
}.

Definition or_else {A : Type} (o : option A) (d : A) : A :=
  match o with Some v => v | None => d end.

(** [{ ...node, ...updates }] *)
Definition spread_updates (node : TextNode) (updates : Partial) : TextNode :=
  {| id := id node; x := x node; y := y node;
     text := or_else (p_text updates) (text node);
     fontSize := or_else (p_fontSize updates) (fontSize node);
     fontColor := or_else (p_fontColor updates) (fontColor node);
     width := width node; height := height node;
     isEditing := match p_isEditing updates with
                  | Some b => Some b
                  | None => isEditing node
                  end |}.

(** ** Component state

    The seven [useState] cells, in the order of their declaration, and the
    [isDragging] ref of [part_000].  ([App.tsx] has a ref [selectedNodeRef]
    instead, which is assigned but never read; it is not modelled.) *)

Record State : Type := mkState {
  textNodes : list TextNode;
  selectedId : option string;
  editText : string;
  currentColor : string;
  currentFontSize : number;
  history : list (list TextNode);
  historyIndex : Z;
  isDragging : bool
}.

Definition initial : State :=
  {| textNodes := []; selectedId := None; editText := "";
     currentColor := "#000000"; currentFontSize := num 20;
     history := []; historyIndex := -1; isDragging := false |}.

(** [if (selectedId)]: [null] and the empty string are falsy *)
Definition truthy (v : option string) : bool :=
  match v with
  | Some s => negb (s =? "")%string
  | None => false
  end.

(** [node.id === selectedId] *)
Definition is_selected (sel : option string) (i : string) : bool :=
  match sel with
  | Some s => (i =? s)%string
  | None => false
  end.

(** ** Queued state updates *)

Inductive action : Type :=
| setTextNodes (f : list TextNode -> list TextNode)
| setSelectedId (v : option string)
| setEditText (v : string)
| setCurrentColor (v : string)
| setCurrentFontSize (v : number)
| setHistory (v : list (list TextNode))
| setHistoryIndex (v : Z)
| setIsDragging (v : bool).

Definition apply_action (s : State) (a : action) : State :=
  match a with
  | setTextNodes f =>
      mkState (f (textNodes s)) (selectedId s) (editText s) (currentColor s)
        (currentFontSize s) (history s) (historyIndex s) (isDragging s)
  | setSelectedId v =>
      mkState (textNodes s) v (editText s) (currentColor s)
        (currentFontSize s) (history s) (historyIndex s) (isDragging s)
  | setEditText v =>
      mkState (textNodes s) (selectedId s) v (currentColor s)
        (currentFontSize s) (history s) (historyIndex s) (isDragging s)
  | setCurrentColor v =>
      mkState (textNodes s) (selectedId s) (editText s) v
        (currentFontSize s) (history s) (historyIndex s) (isDragging s)
  | setCurrentFontSize v =>
      mkState (textNodes s) (selectedId s) (editText s) (currentColor s)
        v (history s) (historyIndex s) (isDragging s)
  | setHistory v =>
      mkState (textNodes s) (selectedId s) (editText s) (currentColor s)
        (currentFontSize s) v (historyIndex s) (isDragging s)
  | setHistoryIndex v =>
      mkState (textNodes s) (selectedId s) (editText s) (currentColor s)
        (currentFontSize s) (history s) v (isDragging s)
  | setIsDragging v =>
      mkState (textNodes s) (selectedId s) (editText s) (currentColor s)
        (currentFontSize s) (history s) (historyIndex s) v
  end.

Definition commit (s : State) (queue : list action) : State :=
  fold_left apply_action queue s.

Definition sets_textNodes (a : action) : bool :=
  match a with setTextNodes _ => true | _ => false end.

(** ** The history effect: [useEffect(() => { ... }, [textNodes])] *)

Definition recordHistory (s : State) : list action :=
  if (historyIndex s =? -1)
     || negb (isEqual (index (history s) (historyIndex s)) (textNodes s))
  then
    let newHistory :=
      slice0 (history s) (historyIndex s + 1) ++ [cloneDeep (textNodes s)] in
    [setHistory newHistory;
     setHistoryIndex (Z.of_nat (List.length newHistory) - 1)]
  else [].

(** One event: the handler's queue is applied; when it called
    [setTextNodes] the array is a new one, so the effect runs on the state
    just rendered. *)
Definition dispatch (s : State) (queue : list action) : State :=
  let s1 := commit s queue in
  if existsb sets_textNodes queue then commit s1 (recordHistory s1) else s1.

(** ** Events *)

(** What the handlers read from [e.target]. *)
Record Target : Type := mkTarget {
  t_isStage : bool;      (* e.target === e.target.getStage() *)
  t_name : string;       (* e.target.name() *)
  t_id : string;         (* e.target.id() *)
  t_x : number;
  t_y : number;
  t_scaleX : number;
  t_scaleY : number;
  t_width : number;
  t_height : number
}.

(** The events carry what the handlers are called with.  The type is wider
    than what the page delivers: the font-size slider only delivers the
    sizes of [slider_value], and in [part_000] the value a blur reads from
    the overlay input is the one the page of [page_step] holds.  Theorems
    about all events hold of the delivered ones in particular; the
    invariants that need the delivered ones say so. *)
Inductive event : Type :=
| StageClick (e : Target)
| DragStart
| DragEnd (e : Target)
| Transform (e : Target)
| TransformEnd (e : Target)
| TextDoubleClick (e : Target)
| InputChange (value : string)            (* onChange of the overlay input *)
| InputBlur (value : option string)       (* onBlur, or Enter; the input's value *)
| FontSizeChange (size : number)
| ColorChange (color : string)
| AddText (now : Z)
| Undo
| Redo
| DeleteSelected.

(** [a || b] on strings: the empty string and [undefined] are falsy *)
Definition js_or (a : option string) (b : string) : string :=
  match a with
  | Some v => if (v =? "")%string then b else v
  | None => b
  end.

(** ** The component as a transition system

    [handler] is the wiring of the JSX: which handler an event reaches. *)

Section Component.

Variable handler : State -> event -> list action.

Definition step (s : State) (e : event) : State :=
  dispatch s (handler s e).

(** Mounting: the effects of the first render run in the order of their
    declaration, [addTextNode()] first and the history effect second,
    both on the cells of that render; the render that follows sees a new
    [textNodes] and runs the history effect again. *)
Definition mount (now : Z) : State :=
  dispatch initial (handler initial (AddText now) ++ recordHistory initial).

Definition run (now : Z) (events : list event) : State :=
  fold_left step events (mount now).

(** States the component reaches through events allowed by [ok]. *)
Inductive reachable (ok : State -> event -> Prop) : State -> Prop :=
| reachable_mount (now : Z) :
    ok initial (AddText now) -> reachable ok (mount now)
| reachable_step (s : State) (e : event) :
    reachable ok s -> ok s e -> reachable ok (step s e).

End Component.

(** ** [src/unnamed/part_000] *)

Module Part000.

Definition handleStageClick (s : State) (e : Target) : list action :=
  if isDragging s then [setIsDragging false]
  else if t_isStage e then [setSelectedId None]
  else if (t_name e =? "text-node")%string then
    let tid := t_id e in
    setSelectedId (Some tid) ::
    match find (fun n => (id n =? tid)%string) (textNodes s) with
    | Some node =>
        [setCurrentColor (fontColor node); setCurrentFontSize (fontSize node)]
    | None => []
    end
  else [setSelectedId None].

Definition handleDragStart : list action := [setIsDragging true].

Definition handleDragEnd (e : Target) : list action :=
  let tid := t_id e in
  [setTextNodes (map (fun node =>
     if (id node =? tid)%string then spread_xy node (t_x e) (t_y e) else node));
   setIsDragging false].

Definition handleTransform (s : State) (e : Target) : list action :=
  let tid := t_id e in
  match find (fun n => (id n =? tid)%string) (textNodes s) with
  | None => []
  | Some node =>
      let scaleX := t_scaleX e in
      let newFontSize := Math_max (num 5) (fontSize node * scaleX)%Qc in
      if is_selected (selectedId s) tid
      then [setCurrentFontSize newFontSize]
      else []
  end.

Definition handleTransformEnd (s : State) (e : Target) : list action :=
  let tid := t_id e in
  match find (fun n => (id n =? tid)%string) (textNodes s) with
  | None => []
  | Some _ =>
      [setTextNodes (map (fun node =>
         if (id node =? tid)%string
         then spread_transform node (t_x e) (t_y e)
                (Math_max (num 5) (fontSize node * t_scaleX e)%Qc)
                (t_width e * t_scaleX e)%Qc
                (t_height e * t_scaleY e)%Qc
         else node))]
  end.

Definition handleTextDoubleClick (s : State) (e : Target) : list action :=
  if isDragging s then []
  else
    let tid := t_id e in
    match find (fun n => (id n =? tid)%string) (textNodes s) with
    | None => []
    | Some node =>
        [setEditText (text node);
         setSelectedId (Some tid);
         setCurrentColor (fontColor node);
         setCurrentFontSize (fontSize node);
         setTextNodes (map (fun n =>
           if (id n =? tid)%string
           then spread_isEditing n true
           else spread_isEditing n false))]
    end.

Definition handleInputBlur (s : State) (value : option string) : list action :=
  if negb (truthy (selectedId s)) then []
  else
    let updatedText := js_or value (editText s) in
    [setTextNodes (map (fun node =>
       if is_selected (selectedId s) (id node)
       then spread_commit node updatedText (currentColor s) (currentFontSize s)
       else node));
     setEditText updatedText].

Definition handleFontSizeChange (s : State) (size : number) : list action :=
  setCurrentFontSize size ::
  if truthy (selectedId s)
  then [setTextNodes (map (fun node =>
          if is_selected (selectedId s) (id node)
          then spread_fontSize node size
          else node))]
  else [].

Definition handleColorChange (s : State) (color : string) : list action :=
  setCurrentColor color ::
  if truthy (selectedId s)
  then [setTextNodes (map (fun node =>
          if is_selected (selectedId s) (id node)
          then spread_fontColor node color
          else node))]
  else [].

Definition addTextNode (s : State) (now : Z) : list action :=
  let newTextNode :=
    {| id := toString now; x := num 50; y := num 50;
       text := "Double click to edit";
       fontSize := currentFontSize s; fontColor := currentColor s;
       width := None; height := None;
       isEditing := Some false |} in
  [setTextNodes (fun prevNodes => prevNodes ++ [newTextNode]);
   setSelectedId (Some (id newTextNode))].

(** [cloneDeep(history[newIndex])] throws when the entry is [undefined]
    ([JSON.parse(undefined)]); the handler stops there, after
    [setHistoryIndex] was queued. *)
Definition undo (s : State) : list action :=
  if historyIndex s >? 0 then
    let newIndex := historyIndex s - 1 in
    setHistoryIndex newIndex ::
    match index (history s) newIndex with
    | Some entry => [setTextNodes (fun _ => cloneDeep entry); setSelectedId None]
    | None => []
    end
  else [].

Definition redo (s : State) : list action :=
  if historyIndex s <? Z.of_nat (List.length (history s)) - 1 then
    let newIndex := historyIndex s + 1 in
    setHistoryIndex newIndex ::
    match index (history s) newIndex with
    | Some entry => [setTextNodes (fun _ => cloneDeep entry); setSelectedId None]
    | None => []
    end
  else [].

Definition deleteSelected (s : State) : list action :=
  if negb (truthy (selectedId s)) then []
  else
    [setTextNodes (filter (fun node => negb (is_selected (selectedId s) (id node))));
     setSelectedId None].

Definition handler (s : State) (ev : event) : list action :=
  match ev with
  | StageClick e => handleStageClick s e
  | DragStart => handleDragStart
  | DragEnd e => handleDragEnd e
  | Transform e => handleTransform s e
  | TransformEnd e => handleTransformEnd s e
  | TextDoubleClick e => handleTextDoubleClick s e
  | InputChange value => [setEditText value]
  | InputBlur value => handleInputBlur s value
  | FontSizeChange size => handleFontSizeChange s size
  | ColorChange color => handleColorChange s color
  | AddText now => addTextNode s now
  | Undo => undo s
  | Redo => redo s
  | DeleteSelected => deleteSelected s
  end.

End Part000.

(** ** [src/src/App.tsx] *)

Module App.

Definition updateTextNode (tid : string) (updates : Partial) : list action :=
  [setTextNodes (map (fun node =>
     if (id node =? tid)%string then spread_updates node updates else node))].

Definition handleStageClick (s : State) (e : Target) : list action :=
  if t_isStage e then [setSelectedId None]
  else if (t_name e =? "text-node")%string then
    let tid := t_id e in
    setSelectedId (Some tid) ::
    match find (fun n => (id n =? tid)%string) (textNodes s) with
    | Some node =>
        [setCurrentColor (fontColor node); setCurrentFontSize (fontSize node)]
    | None => []
    end
  else [setSelectedId None].

Definition handleDragEnd (e : Target) : list action :=
  let tid := t_id e in
  [setTextNodes (map (fun node =>
     if (id node =? tid)%string then spread_xy node (t_x e) (t_y e) else node))].

Definition handleTransform (s : State) (e : Target) : list action :=
  let tid := t_id e in
  match find (fun n => (id n =? tid)%string) (textNodes s) with
  | None => []
  | Some node =>
      let scaleX := t_scaleX e in
      let newFontSize := Math_max (num 5) (fontSize node * scaleX)%Qc in
      if is_selected (selectedId s) tid
      then [setCurrentFontSize newFontSize]
      else []
  end.

Definition handleTransformEnd (e : Target) : list action :=
  let tid := t_id e in
  [setTextNodes (map (fun node =>
     if (id node =? tid)%string
     then spread_transform node (t_x e) (t_y e)
            (Math_max (num 5) (fontSize node * t_scaleX e)%Qc)
            (t_width e * t_scaleX e)%Qc
            (t_height e * t_scaleY e)%Qc
     else node))].

Definition handleTextDoubleClick (s : State) (e : Target) : list action :=
  let tid := t_id e in
  match find (fun n => (id n =? tid)%string) (textNodes s) with
  | None => []
  | Some node =>
      [setEditText (text node);
       setSelectedId (Some tid);
       setCurrentColor (fontColor node);
       setCurrentFontSize (fontSize node)]
      ++ updateTextNode tid (mkPartial None None None (Some true))
  end.

Definition handleInputBlur (s : State) : list action :=
  match selectedId s with
  | None => []
  | Some sid =>
      if (sid =? "")%string then []
      else updateTextNode sid
             (mkPartial (Some (editText s)) (Some (currentColor s))
                (Some (currentFontSize s)) (Some false))
  end.

Definition handleFontSizeChange (s : State) (size : number) : list action :=
  setCurrentFontSize size ::
  match selectedId s with
  | None => []
  | Some sid =>
      if (sid =? "")%string then []
      else updateTextNode sid (mkPartial None None (Some size) None)
  end.

Definition handleColorChange (s : State) (color : string) : list action :=
  setCurrentColor color ::
  match selectedId s with
  | None => []
  | Some sid =>
      if (sid =? "")%string then []
      else updateTextNode sid (mkPartial None (Some color) None None)
  end.

Definition addTextNode (s : State) (now : Z) : list action :=
  let newTextNode :=
    {| id := toString now; x := num 50; y := num 50;
       text := "Double click to edit";
       fontSize := currentFontSize s; fontColor := currentColor s;
       width := None; height := None;
       isEditing := Some false |} in
  [setTextNodes (fun prevNodes => prevNodes ++ [newTextNode]);
   setSelectedId (Some (id newTextNode))].

(** As in [part_000], without the [setSelectedId(null)]. *)
Definition undo (s : State) : list action :=
  if historyIndex s >? 0 then
    let newIndex := historyIndex s - 1 in
    setHistoryIndex newIndex ::
    match index (history s) newIndex with
    | Some entry => [setTextNodes (fun _ => cloneDeep entry)]
    | None => []
    end
  else [].

Definition redo (s : State) : list action :=
  if historyIndex s <? Z.of_nat (List.length (history s)) - 1 then
    let newIndex := historyIndex s + 1 in
    setHistoryIndex newIndex ::
    match index (history s) newIndex with
    | Some entry => [setTextNodes (fun _ => cloneDeep entry)]
    | None => []
    end
  else [].

Definition deleteSelected (s : State) : list action :=
  if negb (truthy (selectedId s)) then []
  else
    [setTextNodes (filter (fun node => negb (is_selected (selectedId s) (id node))));
     setSelectedId None].

(** [App.tsx] has no [onDragStart]; its overlay input is controlled
    ([value={editText}]), so the blur handler reads [editText] only. *)
Definition handler (s : State) (ev : event) : list action :=
  match ev with
  | StageClick e => handleStageClick s e
  | DragStart => []
  | DragEnd e => handleDragEnd e
  | Transform e => handleTransform s e
  | TransformEnd e => handleTransformEnd e
  | TextDoubleClick e => handleTextDoubleClick s e
  | InputChange value => [setEditText value]
  | InputBlur _ => handleInputBlur s
  | FontSizeChange size => handleFontSizeChange s size
  | ColorChange color => handleColorChange s color
  | AddText now => addTextNode s now
  | Undo => undo s
  | Redo => redo s
  | DeleteSelected => deleteSelected s
  end.

End App.

(** The two files as one family of transition systems. *)

Inductive source_file : Type := part_000 | App_tsx.

Definition component (f : source_file) : State -> event -> list action :=
  match f with
  | part_000 => Part000.handler
  | App_tsx => App.handler
  end.

(** A click, drag or double click on the Konva text node with id [i]. *)
Definition on_text (i : string) : Target :=
  mkTarget false "text-node" i (num 50) (num 50) (num 1) (num 1) (num 100) (num 20).

(** The Konva text node with id [i] after it was dragged to [(nx, ny)]. *)
Definition dragged_to (i : string) (nx ny : Z) : Target :=
  mkTarget false "text-node" i (num nx) (num ny) (num 1) (num 1) (num 100) (num 20).

(** * Specification vocabulary *)

(** The invariant of the history log: the entry under the cursor is the
    live object list. *)
Definition hist_ok (s : State) : Prop :=
  index (history s) (historyIndex s) = Some (textNodes s).

(** The cursor points into the log, or is the initial [-1]. *)
Definition cursor_in_log (s : State) : Prop :=
  -1 <= historyIndex s < Z.of_nat (List.length (history s)).

Definition any_event : State -> event -> Prop := fun _ _ => True.

(** The font-size control delivers sizes of at least 5 (the slider of the
    side panel has [min="10"] and [max="72"]). *)
Definition slider_ok : State -> event -> Prop :=
  fun _ e =>
    match e with
    | FontSizeChange size => (num 5 <= size)%Qc
    | _ => True
    end.

(** The clock reading of an "Add Text" is not yet an id of the list. *)
Definition fresh_add : State -> event -> Prop :=
  fun s e =>
    match e with
    | AddText now => ~ In (toString now) (map id (textNodes s))
    | _ => True
    end.

(** A click that lands on a text node lands on one of the list. *)
Definition click_on_node : State -> event -> Prop :=
  fun s e =>
    match e with
    | StageClick t =>
        t_isStage t = false -> t_name t = "text-node" ->
        In (t_id t) (map id (textNodes s))
    | _ => True
    end.

Definition fonts_ok (nodes : list TextNode) : Prop :=
  Forall (fun n => (num 5 <= fontSize n)%Qc) nodes.

Definition ids_unique (nodes : list TextNode) : Prop :=
  NoDup (map id nodes).

Definition editing (n : TextNode) : bool :=
  match isEditing n with Some true => true | _ => false end.

Definition at_most_one_editing (nodes : list TextNode) : Prop :=
  (List.length (filter editing nodes) <= 1)%nat.

Definition selection_valid (s : State) : Prop :=
  match selectedId s with
  | None => True
  | Some i => In i (map id (textNodes s))
  end.

(** What a commit of [newText] on the object [sid] does to one node. *)
Definition committed (sid newText : string) (s : State) (n n' : TextNode) : Prop :=
  if (id n =? sid)%string
  then id n' = id n /\ x n' = x n /\ y n' = y n
       /\ width n' = width n /\ height n' = height n
       /\ text n' = newText
       /\ fontSize n' = currentFontSize s
       /\ fontColor n' = currentColor s
       /\ isEditing n' = Some false
  else n' = n.

(** The node [addTextNode] builds while the global style is the initial
    one. *)
Definition default_node (now : Z) : TextNode :=
  {| id := toString now; x := num 50; y := num 50;
     text := "Double click to edit";
     fontSize := num 20; fontColor := "#000000";
     width := None; height := None; isEditing := Some false |}.

Definition sets_history (a : action) : bool :=
  match a with setHistory _ => true | _ => false end.

Definition sets_historyIndex (a : action) : bool :=
  match a with setHistoryIndex _ => true | _ => false end.

(** The events that are mutations of the document, as opposed to the two
    that travel in the log. *)
Definition is_mutation (e : event) : bool :=
  match e with Undo | Redo => false | _ => true end.

(** The object list after a queue of updates. *)
Definition nodes_after (queue : list action) (nodes : list TextNode) : list TextNode :=
  fold_left (fun acc a => match a with setTextNodes f => f acc | _ => acc end)
    queue nodes.

(** * The rest of the component *)

(** [handleKeyDown], the listener the third effect puts on [window]: the
    queue of the handler it calls, and whether [e.preventDefault()] was
    called.  The effect depends on [history] and [historyIndex], so the
    [undo] and [redo] it calls are those of the current render. *)
Definition handleKeyDown (f : source_file) (s : State) (ctrlKey : bool) (key : string)
  : bool * list action :=
  if ctrlKey then
    if (key =? "z")%string then (true, component f s Undo)
    else if (key =? "y")%string then (true, component f s Redo)
    else (false, [])
  else (false, []).

Definition key_step (f : source_file) (s : State) (ctrlKey : bool) (key : string) : State :=
  dispatch s (snd (handleKeyDown f s ctrlKey key)).

(** The JSX, which is the same in both files. *)

(** [{!node.isEditing && <Text id={node.id} ... />}]: the nodes on the
    canvas. *)
Definition renderedTexts (s : State) : list TextNode :=
  filter (fun node => negb (editing node)) (textNodes s).

(** [{selectedId && (<> colour, size, delete </>)}] *)
Definition showControls (s : State) : bool := truthy (selectedId s).

(** [{selectedId && !textNodes.find((n) => n.id === selectedId)?.isEditing
    && <Transformer ... />}] *)
Definition showTransformer (s : State) : bool :=
  truthy (selectedId s)
  && negb (match find (fun n => is_selected (selectedId s) (id n)) (textNodes s) with
           | Some n => editing n
           | None => false
           end).

(** [{textNodes.some((n) => n.isEditing) && <input ... />}] *)
Definition showInput (s : State) : bool := existsb editing (textNodes s).

(** [disabled={historyIndex <= 0}] *)
Definition undoDisabled (s : State) : bool := historyIndex s <=? 0.

(** [disabled={historyIndex >= history.length - 1}] *)
Definition redoDisabled (s : State) : bool :=
  historyIndex s >=? Z.of_nat (List.length (history s)) - 1.

(** Konva's [Box], the argument of the transformer's [boundBoxFunc]. *)
Record Box : Type := mkBox {
  b_x : number;
  b_y : number;
  b_width : number;
  b_height : number;
  b_rotation : number
}.

(** [a < b] on numbers *)
Definition number_ltb (a b : number) : bool := negb (Qle_bool b a).

Definition boundBoxFunc (oldBox newBox : Box) : Box :=
  if number_ltb (b_width newBox) (num 5) || number_ltb (b_height newBox) (num 5)
  then oldBox
  else newBox.

(** * More vocabulary *)

(** The same event [k] times in a row. *)
Definition repeat_step (handler : State -> event -> list action) (e : event)
  (k : nat) (s : State) : State :=
  Nat.iter k (fun st => step handler st e) s.

(** States reached while the clock read at each "Add Text" is later than
    at every earlier one; the index is the last reading. *)
Inductive reachable_clock (handler : State -> event -> list action) : Z -> State -> Prop :=
| clock_mount (now : Z) : reachable_clock handler now (mount handler now)
| clock_add (clock : Z) (s : State) (now : Z) :
    reachable_clock handler clock s -> clock < now ->
    reachable_clock handler now (step handler s (AddText now))
| clock_other (clock : Z) (s : State) (e : event) :
    reachable_clock handler clock s -> (forall now, e <> AddText now) ->
    reachable_clock handler clock (step handler s e).

(** No two neighbours of the log are equal. *)
Definition adjacent_distinct (log : list (list TextNode)) : Prop :=
  forall (i : nat) (a b : list TextNode),
    nth_error log i = Some a -> nth_error log (S i) = Some b -> a <> b.

(** The gestures that carry a text node, apart from the click. *)
Definition gesture_target (e : event) : option Target :=
  match e with
  | DragEnd t | Transform t | TransformEnd t | TextDoubleClick t => Some t
  | _ => None
  end.

(** The events that only concern the view: selection, the drag flag, the
    live preview of a resize and typing in the overlay. *)
Definition is_view_event (e : event) : bool :=
  match e with
  | StageClick _ | DragStart | Transform _ | InputChange _ => true
  | _ => false
  end.

(** The events that neither add nor remove objects nor travel in the log. *)
Definition keeps_objects (e : event) : bool :=
  match e with
  | AddText _ | DeleteSelected | Undo | Redo => false
  | _ => true
  end.


(** Every id of the list is the decimal string of a reading up to [clock]. *)
Definition ids_before (clock : Z) (nodes : list TextNode) : Prop :=
  forall i, In i (map id nodes) -> exists t, t <= clock /\ i = toString t.

(** What of an object lies outside its position, outside its colour,
    outside its font size, outside its geometry (position, font size and
    box), outside its editing flag, and outside what a commit writes. *)
Definition but_position (n : TextNode) :=
  (id n, text n, fontSize n, fontColor n, width n, height n, isEditing n).

Definition but_fontColor (n : TextNode) :=
  (id n, x n, y n, text n, fontSize n, width n, height n, isEditing n).

Definition but_fontSize (n : TextNode) :=
  (id n, x n, y n, text n, fontColor n, width n, height n, isEditing n).

Definition but_geometry (n : TextNode) :=
  (id n, text n, fontColor n, isEditing n).

Definition but_isEditing (n : TextNode) :=
  (id n, x n, y n, text n, fontSize n, fontColor n, width n, height n).

Definition but_committed (n : TextNode) :=
  (id n, x n, y n, width n, height n).

(** * The page: what the controls deliver *)

(** The font-size control is
    [<input type="range" min="10" max="72" value={currentFontSize}
       onChange={(e) => handleFontSizeChange(parseInt(e.target.value))} />]:
    the handler is only ever called with a whole number from 10 to 72. *)
Definition slider_value (size : number) : Prop :=
  exists k : Z, 10 <= k <= 72 /\ size = num k.

Definition from_slider : State -> event -> Prop :=
  fun _ e =>
    match e with
    | FontSizeChange size => slider_value size
    | _ => True
    end.

(** The component together with its overlay input element:
    [inputValue] is [textInputRef.current?.value], [None] while the element
    is not rendered. *)
Record Page : Type := mkPage {
  page_state : State;
  inputValue : option string
}.

(** The value of the overlay input once the event is handled and the
    component rendered again.  The element is there when some object is
    editing.  In [App.tsx] it is controlled ([value={editText}]).  In
    [part_000] it is uncontrolled: it is created with
    [defaultValue={editText}] and then keeps its value, which typing sets
    (that is what fires [onChange]) and which the timeout of a double click
    that found its node overwrites
    ([textInputRef.current.value = node.text]). *)
Definition input_after (f : source_file) (before : option string) (e : event)
  (s s' : State) : option string :=
  if showInput s' then
    match f with
    | App_tsx => Some (editText s')
    | part_000 =>
        let kept := match before with Some v => v | None => editText s' end in
        Some (match e with
              | InputChange v => v
              | TextDoubleClick t =>
                  if isDragging s then kept
                  else match find (fun n => (id n =? t_id t)%string) (textNodes s) with
                       | Some node => text node
                       | None => kept
                       end
              | _ => kept
              end)
    end
  else None.

(** One event on the page: a blur reads the value the element holds. *)
Definition page_step (f : source_file) (p : Page) (e : event) : Page :=
  let e' := match e with
            | InputBlur _ => InputBlur (inputValue p)
            | _ => e
            end in
  let s' := step (component f) (page_state p) e' in
  mkPage s' (input_after f (inputValue p) e (page_state p) s').

(** After mounting no object is editing, so there is no overlay input. *)
Definition page_mount (f : source_file) (now : Z) : Page :=
  mkPage (mount (component f) now) None.

Definition page_run (f : source_file) (now : Z) (events : list event) : Page :=
  fold_left (page_step f) events (page_mount f now).

Inductive page_reachable (f : source_file) : Page -> Prop :=
| page_reachable_mount (now : Z) : page_reachable f (page_mount f now)
| page_reachable_step (p : Page) (e : event) :
    page_reachable f p -> page_reachable f (page_step f p e).

(** The overlay input, when there is one, holds the edit buffer. *)
Definition page_sync (p : Page) : Prop :=
  match inputValue p with
  | Some v => v = editText (page_state p)
  | None => True
  end.

(** The events whose handlers do not write the edit buffer. *)
Definition keeps_editText (e : event) : bool :=
  match e with
  | InputChange _ | TextDoubleClick _ | InputBlur _ => false
  | _ => true
  end.

Definition ids_nonempty (nodes : list TextNode) : Prop :=
  forall i, In i (map id nodes) -> i <> "".

(** * Properties *)

(** ** Structural equality *)

Lemma number_eqb_eq (a b : number) : number_eqb a b = true -> a = b.
Proof.
  unfold number_eqb. intros H.
  apply Qc_is_canon. now apply Qeq_bool_eq.
Qed.

Lemma number_eqb_refl (a : number) : number_eqb a a = true.
Proof. unfold number_eqb. apply Qeq_bool_refl. Qed.

Lemma option_eqb_eq {A : Type} (eqb : A -> A -> bool) :
  (forall u v, eqb u v = true -> u = v) ->
  forall a b, option_eqb eqb a b = true -> a = b.
Proof.
  intros Heq [u|] [v|]; simpl; intros H; try discriminate; auto.
  f_equal. now apply Heq.
Qed.

Lemma TextNode_eqb_eq (a b : TextNode) : TextNode_eqb a b = true -> a = b.
Proof.
  destruct a, b. unfold TextNode_eqb. simpl. intros H.
  repeat (apply andb_prop in H; destruct H as [H ?]).
  repeat match goal with
  | E : (_ =? _)%string = true |- _ => apply String.eqb_eq in E; subst
  | E : number_eqb _ _ = true |- _ => apply number_eqb_eq in E; subst
  | E : option_eqb number_eqb _ _ = true |- _ =>
      apply (option_eqb_eq number_eqb number_eqb_eq) in E; subst
  | E : option_eqb Bool.eqb _ _ = true |- _ =>
      apply (option_eqb_eq Bool.eqb Bool.eqb_prop) in E; subst
  end.
  reflexivity.
Qed.

Lemma nodes_eqb_eq (a b : list TextNode) : nodes_eqb a b = true -> a = b.
Proof.
  revert b. induction a as [|u a IH]; intros [|v b]; simpl; intros H;
    try discriminate; auto.
  apply andb_prop in H. destruct H as [H1 H2].
  f_equal; [now apply TextNode_eqb_eq | now apply IH].
Qed.

Lemma TextNode_eqb_refl (a : TextNode) : TextNode_eqb a a = true.
Proof.
  unfold TextNode_eqb.
  rewrite !String.eqb_refl, !number_eqb_refl. simpl.
  destruct (width a), (height a), (isEditing a) as [[|]|]; simpl;
    rewrite ?number_eqb_refl; reflexivity.
Qed.

Lemma nodes_eqb_refl (a : list TextNode) : nodes_eqb a a = true.
Proof.
  induction a as [|u a IH]; simpl; auto.
  now rewrite TextNode_eqb_refl, IH.
Qed.

Lemma isEqual_true (a : option (list TextNode)) (b : list TextNode) :
  isEqual a b = true <-> a = Some b.
Proof.
  destruct a as [nodes|]; simpl; split; intros H; try discriminate.
  - f_equal. now apply nodes_eqb_eq.
  - injection H as ->. apply nodes_eqb_refl.
Qed.

(** ** Arrays *)

Lemma index_Some {A : Type} (arr : list A) (i : Z) (v : A) :
  index arr i = Some v -> 0 <= i < Z.of_nat (List.length arr).
Proof.
  unfold index. destruct (i <? 0) eqn:E; [discriminate|].
  intros H. apply Z.ltb_ge in E.
  assert (Z.to_nat i < List.length arr)%nat
    by (apply nth_error_Some; congruence).
  lia.
Qed.

Lemma index_in_range {A : Type} (arr : list A) (i : Z) :
  0 <= i < Z.of_nat (List.length arr) -> exists v, index arr i = Some v.
Proof.
  intros H. unfold index.
  destruct (i <? 0) eqn:E; [apply Z.ltb_lt in E; lia|].
  destruct (nth_error arr (Z.to_nat i)) eqn:N; eauto.
  apply nth_error_None in N. lia.
Qed.

Lemma index_In {A : Type} (arr : list A) (i : Z) (v : A) :
  index arr i = Some v -> In v arr.
Proof.
  unfold index. destruct (i <? 0); [discriminate|]. apply nth_error_In.
Qed.

Lemma slice0_firstn {A : Type} (arr : list A) (e : Z) :
  0 <= e -> slice0 arr e = firstn (Z.to_nat e) arr.
Proof.
  intros H. unfold slice0.
  destruct (e <? 0) eqn:E; auto. apply Z.ltb_lt in E. lia.
Qed.

Lemma In_firstn_self {A : Type} (k : nat) (arr : list A) (v : A) :
  In v (firstn k arr) -> In v arr.
Proof.
  intros H. rewrite <- (firstn_skipn k arr). apply in_or_app. now left.
Qed.

Lemma slice0_incl {A : Type} (arr : list A) (e : Z) (v : A) :
  In v (slice0 arr e) -> In v arr.
Proof.
  unfold slice0. destruct (e <? 0); apply In_firstn_self.
Qed.

Lemma index_last {A : Type} (arr : list A) (v : A) :
  index (arr ++ [v]) (Z.of_nat (List.length (arr ++ [v])) - 1) = Some v.
Proof.
  rewrite length_app. simpl. unfold index.
  destruct (_ <? 0) eqn:E; [apply Z.ltb_lt in E; lia|].
  replace (Z.to_nat _) with (List.length arr) by lia.
  rewrite nth_error_app2 by lia.
  now rewrite Nat.sub_diag.
Qed.

(** ** Queues and the history effect *)

Lemma commit_textNodes (q : list action) (s : State) :
  textNodes (commit s q) = nodes_after q (textNodes s).
Proof.
  unfold commit. revert s. induction q as [|a q IH]; intros s; simpl; auto.
  rewrite IH. now destruct a.
Qed.

Lemma commit_history_frame (q : list action) (s : State) :
  existsb sets_history q = false -> history (commit s q) = history s.
Proof.
  unfold commit. revert s. induction q as [|a q IH]; intros s; simpl; auto.
  intros H. apply orb_false_elim in H. destruct H as [Ha Hq].
  rewrite (IH _ Hq). now destruct a.
Qed.

Lemma commit_historyIndex_frame (q : list action) (s : State) :
  existsb sets_historyIndex q = false ->
  historyIndex (commit s q) = historyIndex s.
Proof.
  unfold commit. revert s. induction q as [|a q IH]; intros s; simpl; auto.
  intros H. apply orb_false_elim in H. destruct H as [Ha Hq].
  rewrite (IH _ Hq). now destruct a.
Qed.

Lemma commit_textNodes_frame (q : list action) (s : State) :
  existsb sets_textNodes q = false -> textNodes (commit s q) = textNodes s.
Proof.
  unfold commit. revert s. induction q as [|a q IH]; intros s; simpl; auto.
  intros H. apply orb_false_elim in H. destruct H as [Ha Hq].
  rewrite (IH _ Hq). now destruct a.
Qed.

(** The effect only writes [history] and [historyIndex]. *)
Lemma effect_frame (s : State) :
  let s' := commit s (recordHistory s) in
  textNodes s' = textNodes s /\ selectedId s' = selectedId s
  /\ editText s' = editText s /\ currentColor s' = currentColor s
  /\ currentFontSize s' = currentFontSize s /\ isDragging s' = isDragging s.
Proof.
  unfold recordHistory. destruct (_ || _); simpl; auto 10.
Qed.

(** After the effect, the entry under the cursor is the live list. *)
Lemma effect_hist_ok (s : State) : hist_ok (commit s (recordHistory s)).
Proof.
  unfold hist_ok, recordHistory.
  destruct (_ || _) eqn:E; simpl.
  - unfold cloneDeep. apply index_last.
  - apply orb_false_elim in E. destruct E as [_ E].
    apply negb_false_iff in E. now apply isEqual_true.
Qed.

(** When the live list is already the entry under the cursor the effect
    leaves the log alone. *)
Lemma effect_idle (s : State) : hist_ok s -> commit s (recordHistory s) = s.
Proof.
  unfold hist_ok, recordHistory. intros H.
  assert ((historyIndex s =? -1) = false) as ->.
  { apply Z.eqb_neq. apply index_Some in H. lia. }
  apply isEqual_true in H. rewrite H. reflexivity.
Qed.

(** When it differs, the log is cut after the cursor and the live list is
    appended. *)
Lemma effect_records (s : State) :
  0 <= historyIndex s ->
  index (history s) (historyIndex s) <> Some (textNodes s) ->
  let s' := commit s (recordHistory s) in
  history s' = firstn (Z.to_nat (historyIndex s + 1)) (history s) ++ [textNodes s]
  /\ historyIndex s' = Z.of_nat (List.length (history s')) - 1.
Proof.
  intros Hi Hne. unfold recordHistory.
  destruct (isEqual _ _) eqn:E.
  { apply isEqual_true in E. contradiction. }
  rewrite orb_true_r. simpl. rewrite slice0_firstn by lia. auto.
Qed.

Lemma effect_entries (s : State) (entry : list TextNode) :
  In entry (history (commit s (recordHistory s))) ->
  In entry (history s) \/ entry = textNodes s.
Proof.
  unfold recordHistory. destruct (_ || _); simpl; auto.
  intros H. apply in_app_or in H. destruct H as [H|[H|[]]].
  - left. eapply slice0_incl; eauto.
  - right. now rewrite <- H.
Qed.

Lemma dispatch_frame (s : State) (q : list action) :
  let s1 := commit s q in
  let s' := dispatch s q in
  textNodes s' = textNodes s1 /\ selectedId s' = selectedId s1
  /\ editText s' = editText s1 /\ currentColor s' = currentColor s1
  /\ currentFontSize s' = currentFontSize s1 /\ isDragging s' = isDragging s1.
Proof.
  unfold dispatch. destruct (existsb _ _); auto 10. apply effect_frame.
Qed.

Lemma dispatch_textNodes (s : State) (q : list action) :
  textNodes (dispatch s q) = nodes_after q (textNodes s).
Proof.
  rewrite <- commit_textNodes. apply dispatch_frame.
Qed.

Lemma dispatch_selectedId (s : State) (q : list action) :
  selectedId (dispatch s q) = selectedId (commit s q).
Proof. apply dispatch_frame. Qed.

Lemma dispatch_currentFontSize (s : State) (q : list action) :
  currentFontSize (dispatch s q) = currentFontSize (commit s q).
Proof. apply dispatch_frame. Qed.

Lemma dispatch_entries (s : State) (q : list action) (entry : list TextNode) :
  existsb sets_history q = false ->
  In entry (history (dispatch s q)) ->
  In entry (history s) \/ entry = textNodes (dispatch s q).
Proof.
  intros Hq. unfold dispatch.
  pose proof (commit_history_frame q s Hq) as Hh.
  destruct (existsb sets_textNodes q).
  - intros H. apply effect_entries in H. rewrite Hh in H.
    destruct H as [H|H]; auto. right.
    rewrite H. symmetry. apply effect_frame.
  - rewrite Hh. auto.
Qed.

(** ** What the handlers queue *)

Ltac unfold_handlers :=
  unfold component,
    Part000.handler, Part000.handleStageClick, Part000.handleDragStart,
    Part000.handleDragEnd, Part000.handleTransform, Part000.handleTransformEnd,
    Part000.handleTextDoubleClick, Part000.handleInputBlur,
    Part000.handleFontSizeChange, Part000.handleColorChange,
    Part000.addTextNode, Part000.undo, Part000.redo, Part000.deleteSelected,
    App.handler, App.handleStageClick, App.handleDragEnd, App.handleTransform,
    App.handleTransformEnd, App.handleTextDoubleClick, App.handleInputBlur,
    App.handleFontSizeChange, App.handleColorChange, App.addTextNode,
    App.undo, App.redo, App.deleteSelected, App.updateTextNode in *.

Ltac guard_cases :=
  repeat match goal with
  | |- context [if ?c then _ else _] =>
      match type of c with bool => destruct c eqn:? end
  | |- context [match find ?p ?l with _ => _ end] => destruct (find p l) eqn:?
  | |- context [match index ?a ?i with _ => _ end] => destruct (index a i) eqn:?
  end.

Ltac handler_cases :=
  repeat match goal with
  | |- context [if ?c then _ else _] =>
      match type of c with bool => destruct c eqn:? end
  | |- context [match find ?p ?l with _ => _ end] => destruct (find p l) eqn:?
  | |- context [match selectedId ?s with _ => _ end] =>
      is_var s; destruct (selectedId s) eqn:?
  | |- context [match index ?a ?i with _ => _ end] => destruct (index a i) eqn:?
  end.

(** No handler writes the log itself; only the effect does. *)
Lemma handler_keeps_history (f : source_file) (s : State) (e : event) :
  existsb sets_history (component f s e) = false.
Proof.
  destruct f, e; unfold_handlers; handler_cases; reflexivity.
Qed.

(** Only [undo] and [redo] move the cursor. *)
Lemma handler_keeps_cursor (f : source_file) (s : State) (e : event) :
  is_mutation e = true -> existsb sets_historyIndex (component f s e) = false.
Proof.
  destruct f, e; try discriminate; intros _;
    unfold_handlers; handler_cases; reflexivity.
Qed.

Lemma addTextNode_sets_textNodes (f : source_file) (s : State) (now : Z) :
  existsb sets_textNodes (component f s (AddText now)) = true.
Proof. destruct f; reflexivity. Qed.

(** The state once the component is mounted. *)
Lemma mount_state (f : source_file) (now : Z) :
  mount (component f) now =
  mkState [default_node now] (Some (toString now)) "" "#000000" (num 20)
    [[]; [default_node now]] 1 false.
Proof. destruct f; reflexivity. Qed.

(** ** The history invariant *)

Lemma step_hist_ok (f : source_file) (s : State) (e : event) :
  hist_ok s -> hist_ok (step (component f) s e).
Proof.
  intros H. unfold step, dispatch.
  destruct (existsb sets_textNodes (component f s e)) eqn:T.
  { apply effect_hist_ok. }
  assert (historyIndex (commit s (component f s e)) = historyIndex s) as Hc.
  { destruct (is_mutation e) eqn:M.
    - apply commit_historyIndex_frame. now apply handler_keeps_cursor.
    - pose proof (index_Some _ _ _ H) as R.
      destruct f, e; try discriminate; revert T; unfold_handlers;
        handler_cases; simpl; try discriminate; intros _; try reflexivity;
        exfalso;
        match goal with
        | E : index _ ?i = None |- _ =>
            destruct (index_in_range (history s) i) as [v Hv];
              [lia | congruence]
        end. }
  unfold hist_ok.
  rewrite Hc, commit_history_frame, commit_textNodes_frame; auto.
  apply handler_keeps_history.
Qed.

Lemma mount_hist_ok (f : source_file) (now : Z) : hist_ok (mount (component f) now).
Proof.
  unfold mount, dispatch.
  rewrite existsb_app, addTextNode_sets_textNodes. simpl.
  apply effect_hist_ok.
Qed.

Lemma reachable_hist_ok (f : source_file) (ok : State -> event -> Prop) (s : State) :
  reachable (component f) ok s -> hist_ok s.
Proof.
  induction 1; [apply mount_hist_ok | now apply step_hist_ok].
Qed.

(** ** Undo and redo *)

Lemma undo_installs (f : source_file) (s : State) (entry : list TextNode) :
  0 < historyIndex s ->
  index (history s) (historyIndex s - 1) = Some entry ->
  step (component f) s Undo =
  mkState entry
    (match f with part_000 => None | App_tsx => selectedId s end)
    (editText s) (currentColor s) (currentFontSize s)
    (history s) (historyIndex s - 1) (isDragging s).
Proof.
  intros Hpos He. unfold step, dispatch.
  assert ((historyIndex s >? 0) = true) as G by lia.
  destruct f; unfold_handlers; rewrite G, He; simpl;
    now rewrite effect_idle.
Qed.

Lemma redo_installs (f : source_file) (s : State) (entry : list TextNode) :
  historyIndex s < Z.of_nat (List.length (history s)) - 1 ->
  index (history s) (historyIndex s + 1) = Some entry ->
  step (component f) s Redo =
  mkState entry
    (match f with part_000 => None | App_tsx => selectedId s end)
    (editText s) (currentColor s) (currentFontSize s)
    (history s) (historyIndex s + 1) (isDragging s).
Proof.
  intros Hlt He. unfold step, dispatch.
  assert ((historyIndex s <? Z.of_nat (List.length (history s)) - 1) = true)
    as G by lia.
  destruct f; unfold_handlers; rewrite G, He; simpl;
    now rewrite effect_idle.
Qed.

Lemma undo_idle (f : source_file) (s : State) :
  historyIndex s <= 0 -> step (component f) s Undo = s.
Proof.
  intros H. unfold step, dispatch.
  assert ((historyIndex s >? 0) = false) as G by lia.
  destruct f; unfold_handlers; now rewrite G.
Qed.

Lemma redo_idle (f : source_file) (s : State) :
  Z.of_nat (List.length (history s)) - 1 <= historyIndex s ->
  step (component f) s Redo = s.
Proof.
  intros H. unfold step, dispatch.
  assert ((historyIndex s <? Z.of_nat (List.length (history s)) - 1) = false)
    as G by lia.
  destruct f; unfold_handlers; now rewrite G.
Qed.

(** C3: in every state the component reaches (either file), with the
    cursor strictly between position 0 and the tail of the log, [undo()]
    followed at once by [redo()] gives back the object list there was before
    the undo; the log and the cursor are back as well. *)
Theorem undo_redo_roundtrip (f : source_file) (s : State) :
  reachable (component f) any_event s ->
  0 < historyIndex s < Z.of_nat (List.length (history s)) - 1 ->
  let s' := step (component f) (step (component f) s Undo) Redo in
  textNodes s' = textNodes s
  /\ history s' = history s /\ historyIndex s' = historyIndex s.
Proof.
  intros R [Hpos Htail].
  pose proof (reachable_hist_ok _ _ _ R) as H.
  destruct (index_in_range (history s) (historyIndex s - 1)) as [entry He];
    [lia|].
  cbv zeta. rewrite (undo_installs f s entry Hpos He).
  rewrite (redo_installs f _ (textNodes s)); simpl.
  - repeat split. lia.
  - lia.
  - replace (historyIndex s - 1 + 1) with (historyIndex s) by lia. exact H.
Qed.

Lemma undo_redo_roundtrip_witness :
  let s := run Part000.handler 1 [AddText 2; Undo] in
  let s' := step Part000.handler (step Part000.handler s Undo) Redo in
  (0 < historyIndex s < Z.of_nat (List.length (history s)) - 1)
  /\ textNodes s' = textNodes s
  /\ history s' = history s /\ historyIndex s' = historyIndex s.
Proof.
  assert (reachable (component part_000) any_event
            (run Part000.handler 1 [AddText 2; Undo])) as R.
  { unfold run. simpl fold_left.
    repeat apply reachable_step; try exact I.
    apply reachable_mount. exact I. }
  split.
  - vm_compute. split; reflexivity.
  - apply (undo_redo_roundtrip part_000 _ R). vm_compute. split; reflexivity.
Defined.

(** C4: in every state the component reaches (either file), wherever the
    cursor stands, a mutation that changes the object list cuts the log
    after the cursor before its snapshot is appended: the new log is the old
    one up to the cursor followed by the new object list, the cursor is on
    that last entry, and [redo()] does nothing. *)
Theorem mutation_truncates_redo (f : source_file) (s : State) (e : event) :
  reachable (component f) any_event s ->
  is_mutation e = true ->
  textNodes (step (component f) s e) <> textNodes s ->
  let s' := step (component f) s e in
  history s' =
    firstn (Z.to_nat (historyIndex s + 1)) (history s) ++ [textNodes s']
  /\ historyIndex s' = historyIndex s + 1
  /\ historyIndex s' = Z.of_nat (List.length (history s')) - 1
  /\ step (component f) s' Redo = s'.
Proof.
  intros R M Hne.
  pose proof (reachable_hist_ok _ _ _ R) as H.
  pose proof (index_Some _ _ _ H) as Hr.
  pose proof (commit_history_frame _ s (handler_keeps_history f s e)) as Hh.
  pose proof (commit_historyIndex_frame _ s (handler_keeps_cursor f s e M)) as Hc.
  cbv zeta.
  set (s1 := commit s (component f s e)) in *.
  destruct (existsb sets_textNodes (component f s e)) eqn:T.
  2:{ exfalso. apply Hne. unfold step, dispatch. rewrite T.
      now apply commit_textNodes_frame. }
  assert (step (component f) s e = commit s1 (recordHistory s1)) as Hs.
  { unfold step, dispatch. now rewrite T. }
  rewrite Hs in *. clear Hs.
  destruct (effect_frame s1) as [Ht _]. cbv zeta in Ht.
  rewrite Ht in *.
  destruct (effect_records s1) as [E1 E2].
  { rewrite Hc. lia. }
  { rewrite Hh, Hc, H. congruence. }
  cbv zeta in E1, E2. rewrite Hh, Hc in E1.
  assert (historyIndex (commit s1 (recordHistory s1)) = historyIndex s + 1) as E3.
  { rewrite E2, E1, length_app, length_firstn. simpl. lia. }
  repeat split; auto.
  apply redo_idle. lia.
Qed.

Lemma mutation_truncates_redo_witness :
  let s := run Part000.handler 1 [AddText 2; Undo; Undo] in
  let s' := step (component part_000) s (AddText 3) in
  (List.length (history s) = 3%nat /\ historyIndex s = 0)
  /\ (history s' =
        firstn (Z.to_nat (historyIndex s + 1)) (history s) ++ [textNodes s']
      /\ historyIndex s' = historyIndex s + 1
      /\ historyIndex s' = Z.of_nat (List.length (history s')) - 1
      /\ step (component part_000) s' Redo = s').
Proof.
  assert (reachable (component part_000) any_event
            (run Part000.handler 1 [AddText 2; Undo; Undo])) as R.
  { unfold run. simpl fold_left.
    repeat apply reachable_step; try exact I.
    apply reachable_mount. exact I. }
  split.
  - vm_compute. split; reflexivity.
  - apply (mutation_truncates_redo part_000 _ (AddText 3) R eq_refl).
    vm_compute. discriminate.
Defined.

(** C9: in either file, with the cursor inside the log (or at its initial
    [-1]), [undo()] changes nothing at all when the cursor is at position 0
    or the log is empty, and [redo()] changes nothing at all when the cursor
    is at the tail: the state after the event is the state before. *)
Theorem undo_redo_at_boundaries (f : source_file) (s : State) :
  cursor_in_log s ->
  (historyIndex s = 0 \/ history s = [] -> step (component f) s Undo = s)
  /\ (historyIndex s = Z.of_nat (List.length (history s)) - 1 ->
      step (component f) s Redo = s).
Proof.
  intros [Hlo Hhi]. split.
  - intros [H|H]; apply undo_idle.
    + lia.
    + rewrite H in Hhi. simpl in Hhi. lia.
  - intros H. apply redo_idle. lia.
Qed.

Lemma undo_redo_at_boundaries_witness :
  let at_zero := run Part000.handler 1 [Undo] in
  let at_tail := run App.handler 1 [AddText 2] in
  (historyIndex at_zero = 0
   /\ step (component part_000) at_zero Undo = at_zero)
  /\ (history initial = []
      /\ step (component App_tsx) initial Undo = initial)
  /\ (historyIndex at_tail = Z.of_nat (List.length (history at_tail)) - 1
      /\ step (component App_tsx) at_tail Redo = at_tail).
Proof.
  cbv zeta. split; [split|split; split].
  - vm_compute. reflexivity.
  - refine (proj1 (undo_redo_at_boundaries part_000
                     (run Part000.handler 1 [Undo]) _) _).
    + vm_compute. split; [discriminate | reflexivity].
    + left. vm_compute. reflexivity.
  - reflexivity.
  - refine (proj1 (undo_redo_at_boundaries App_tsx initial _) _).
    + vm_compute. split; [discriminate | reflexivity].
    + right. reflexivity.
  - vm_compute. reflexivity.
  - refine (proj2 (undo_redo_at_boundaries App_tsx
                     (run App.handler 1 [AddText 2]) _) _).
    + vm_compute. split; [discriminate | reflexivity].
    + vm_compute. reflexivity.
Defined.

(** C10: in either file, when the blur (or Enter) handler of the overlay
    input fires while [selectedId] is [null], nothing is queued: the whole
    state, and so every [isEditing] flag, is as before. *)
Theorem blur_without_selection (f : source_file) (s : State) (value : option string) :
  selectedId s = None -> step (component f) s (InputBlur value) = s.
Proof.
  intros H. unfold step, dispatch.
  destruct f; unfold_handlers; rewrite H; reflexivity.
Qed.

Lemma blur_without_selection_witness :
  let s := run Part000.handler 1
             [TextDoubleClick (on_text "1"); InputBlur (Some "Hello"); Undo] in
  selectedId s = None
  /\ map isEditing (textNodes s) = [Some true]
  /\ step (component part_000) s (InputBlur (Some "Hello")) = s.
Proof.
  cbv zeta. split; [vm_compute; reflexivity|].
  split; [vm_compute; reflexivity|].
  apply blur_without_selection. vm_compute. reflexivity.
Defined.

(** ** Invariants of the object list carried through the log *)

Section ListInvariant.

Variable P : list TextNode -> Prop.

(** Every entry of the log after an event was in the log before, or is the
    live list. *)
Lemma dispatch_keeps_log (s : State) (q : list action) :
  existsb sets_history q = false ->
  Forall P (history s) ->
  P (textNodes (dispatch s q)) ->
  Forall P (history (dispatch s q)).
Proof.
  intros Hq Hlog Hlive. apply Forall_forall. intros entry Hin.
  destruct (dispatch_entries s q entry Hq Hin) as [H| ->]; auto.
  rewrite Forall_forall in Hlog. auto.
Qed.

Lemma index_Forall (log : list (list TextNode)) (i : Z) (entry : list TextNode) :
  Forall P log -> index log i = Some entry -> P entry.
Proof.
  intros Hlog Hi. rewrite Forall_forall in Hlog.
  apply Hlog. eapply index_In; eauto.
Qed.

End ListInvariant.

Lemma Forall_map_same {A : Type} (Q : A -> Prop) (g : A -> A) (l : list A) :
  (forall a, Q a -> Q (g a)) -> Forall Q l -> Forall Q (map g l).
Proof.
  intros Hg H. induction H; simpl; constructor; auto.
Qed.

Lemma Forall_filter_same {A : Type} (Q : A -> Prop) (p : A -> bool) (l : list A) :
  Forall Q l -> Forall Q (filter p l).
Proof.
  intros H. induction H; simpl; auto.
  destruct (p x0); auto.
Qed.

Lemma find_In {A : Type} (p : A -> bool) (l : list A) (a : A) :
  find p l = Some a -> In a l.
Proof. intros H. now apply find_some in H. Qed.

(** ** Font sizes *)

Lemma Math_max_floor (v : number) : (num 5 <= Math_max (num 5) v)%Qc.
Proof.
  unfold Math_max. destruct (Qle_bool (num 5) v) eqn:E.
  - now apply Qle_bool_iff in E.
  - apply Qcle_refl.
Qed.

Lemma fonts_ok_step (f : source_file) (s : State) (e : event) :
  slider_ok s e ->
  fonts_ok (textNodes s) -> Forall fonts_ok (history s) ->
  (num 5 <= currentFontSize s)%Qc ->
  fonts_ok (nodes_after (component f s e) (textNodes s))
  /\ (num 5 <= currentFontSize (commit s (component f s e)))%Qc.
Proof.
  intros Hok Hlive Hlog Hcur.
  destruct f, e; unfold_handlers; handler_cases; simpl; split; auto;
    unfold fonts_ok in *;
    try match goal with
    | E : find _ _ = Some ?n |- (_ <= fontSize ?n)%Qc =>
        apply find_In in E; rewrite Forall_forall in Hlive; now apply Hlive
    | |- (_ <= Math_max _ _)%Qc => apply Math_max_floor
    | E : index _ _ = Some ?entry |- Forall _ (cloneDeep ?entry) =>
        exact (index_Forall fonts_ok _ _ _ Hlog E)
    | |- Forall _ (filter _ _) => now apply Forall_filter_same
    | |- Forall _ (_ ++ _) =>
        apply Forall_app; split; [assumption | repeat constructor; assumption]
    | |- Forall _ (map _ _) =>
        apply Forall_map_same; [|assumption];
        intros a Ha; simpl;
        repeat match goal with
        | |- context [if ?c then _ else _] => destruct c
        | |- context [match ?o with Some _ => _ | None => _ end] => destruct o
        end; simpl; auto using Math_max_floor
    end.
Qed.

Lemma fonts_ok_reachable (f : source_file) (s : State) :
  reachable (component f) slider_ok s ->
  fonts_ok (textNodes s) /\ Forall fonts_ok (history s)
  /\ (num 5 <= currentFontSize s)%Qc.
Proof.
  induction 1 as [now _|s e R IH Hok].
  - assert (num 5 <= num 20)%Qc as H20 by (vm_compute; discriminate).
    rewrite mount_state. simpl. unfold fonts_ok.
    repeat (split || constructor); exact H20.
  - destruct IH as (Hlive & Hlog & Hcur).
    destruct (fonts_ok_step f s e Hok Hlive Hlog Hcur) as [Hn Hc].
    unfold step. rewrite <- dispatch_textNodes in Hn.
    split; [exact Hn|]. split.
    + apply dispatch_keeps_log; auto. apply handler_keeps_history.
    + now rewrite dispatch_currentFontSize.
Qed.

(** In either file, as long as every size the font-size handler is given
    is at least 5, every object of the list has [fontSize >= 5] after each
    event.  Only the resize handler clamps ([Math.max(5, ...)]); the
    font-size handler and the commit of an edit store the size they are
    given. *)
Theorem font_floor_with_slider (f : source_file) (s : State) :
  reachable (component f) slider_ok s ->
  forall n, In n (textNodes s) -> (num 5 <= fontSize n)%Qc.
Proof.
  intros R. destruct (fonts_ok_reachable f s R) as [H _].
  unfold fonts_ok in H. now rewrite Forall_forall in H.
Qed.

Lemma font_floor_with_slider_witness :
  let shrink :=
    mkTarget false "text-node" "1" (num 50) (num 50)
      (Q2Qc (1 # 10)) (Q2Qc (1 # 10)) (num 100) (num 20) in
  let s := run Part000.handler 1 [FontSizeChange (num 10); TransformEnd shrink] in
  map fontSize (textNodes s) = [num 5]
  /\ forall n, In n (textNodes s) -> (num 5 <= fontSize n)%Qc.
Proof.
  cbv zeta. split.
  - vm_compute. reflexivity.
  - apply (font_floor_with_slider part_000).
    unfold run. simpl fold_left.
    apply reachable_step; [apply reachable_step; [apply reachable_mount|]|];
      try exact I.
    vm_compute. discriminate.
Defined.

(** The font-size handler has no clamp of its own: called with 3, which
    the slider never delivers, it stores 3.  The floor under a size change
    is owed to the range of the slider. *)
Lemma font_size_handler_has_no_clamp :
  let s := run Part000.handler 1 [FontSizeChange (num 3)] in
  ~ (forall n, In n (textNodes s) -> (num 5 <= fontSize n)%Qc).
Proof.
  cbv zeta. intros H.
  assert (forallb (fun n => Qle_bool (num 5) (fontSize n))
            (textNodes (run Part000.handler 1 [FontSizeChange (num 3)])) = true)
    as C.
  { apply forallb_forall. intros n Hn. apply Qle_bool_iff. now apply H. }
  vm_compute in C. discriminate.
Qed.

(** ** Identifiers *)

Lemma map_id_same (g : TextNode -> TextNode) (l : list TextNode) :
  (forall n, id (g n) = id n) -> map id (map g l) = map id l.
Proof.
  intros Hg. rewrite map_map. apply map_ext. exact Hg.
Qed.

Lemma NoDup_map_filter {A B : Type} (g : A -> B) (p : A -> bool) (l : list A) :
  NoDup (map g l) -> NoDup (map g (filter p l)).
Proof.
  induction l as [|a l IH]; simpl; auto.
  intros H. inversion H as [|? ? Hn Hd]; subst.
  destruct (p a); simpl; auto.
  constructor; auto.
  intros Hin. apply Hn. apply in_map_iff in Hin.
  destruct Hin as (b & Hb & Hf). apply filter_In in Hf.
  apply in_map_iff. exists b. tauto.
Qed.

Ltac same_ids :=
  intros; simpl;
  repeat match goal with
  | |- context [if ?c then _ else _] => destruct c
  end; reflexivity.

(** What an event does to the list of ids: nothing, a removal, an entry of
    the log, or one more id at the end. *)
Lemma ids_unique_step (f : source_file) (s : State) (e : event) :
  fresh_add s e ->
  ids_unique (textNodes s) -> Forall ids_unique (history s) ->
  ids_unique (nodes_after (component f s e) (textNodes s)).
Proof.
  intros Hok Hlive Hlog. unfold ids_unique in *.
  destruct f, e; unfold_handlers; handler_cases; simpl; auto;
    try match goal with
    | E : index _ _ = Some ?entry |- NoDup (map id (cloneDeep ?entry)) =>
        exact (index_Forall ids_unique _ _ _ Hlog E)
    | |- NoDup (map id (filter _ _)) => now apply NoDup_map_filter
    | |- NoDup (map id (_ ++ _)) =>
        rewrite map_app; simpl;
        apply NoDup_app; repeat split; auto;
        [ repeat constructor; simpl; tauto
        | intros a Ha [<-|[]]; now apply Hok ]
    | |- NoDup (map id (map _ _)) => rewrite map_id_same; [assumption | same_ids]
    end.
Qed.

Lemma ids_unique_reachable (f : source_file) (s : State) :
  reachable (component f) fresh_add s ->
  ids_unique (textNodes s) /\ Forall ids_unique (history s).
Proof.
  induction 1 as [now _|s e R IH Hok].
  - rewrite mount_state. simpl. unfold ids_unique. simpl.
    repeat (split || constructor); simpl; tauto.
  - destruct IH as (Hlive & Hlog).
    pose proof (ids_unique_step f s e Hok Hlive Hlog) as Hn.
    unfold step. rewrite <- dispatch_textNodes in Hn.
    split; [exact Hn|].
    apply dispatch_keeps_log; auto. apply handler_keeps_history.
Qed.

(** C8 (as amended): in either file, as long as the clock reading of every
    "Add Text" is not already an id of the list (the new id is
    [Date.now().toString()], and nothing checks it against the list), the
    ids of the live list are pairwise distinct after each event. *)
Theorem ids_distinct_with_fresh_clock (f : source_file) (s : State) :
  reachable (component f) fresh_add s -> NoDup (map id (textNodes s)).
Proof.
  intros R. now destruct (ids_unique_reachable f s R).
Qed.

Lemma ids_distinct_with_fresh_clock_witness :
  let s := run App.handler 1 [AddText 2; Undo; AddText 3] in
  map id (textNodes s) = ["1"; "3"] /\ NoDup (map id (textNodes s)).
Proof.
  cbv zeta. split.
  - vm_compute. reflexivity.
  - apply (ids_distinct_with_fresh_clock App_tsx).
    unfold run. simpl fold_left.
    apply reachable_step;
      [apply reachable_step;
         [apply reachable_step; [apply reachable_mount|]|]|].
    + simpl. tauto.
    + vm_compute. intros [H|[]]. discriminate.
    + exact I.
    + vm_compute. intros [H|[]]. discriminate.
Defined.

(** C8 as stated fails: two "Add Text" within one millisecond give two
    objects the same id. *)
Lemma ids_distinct_counterexample :
  let s := run Part000.handler 1 [AddText 1] in
  ~ NoDup (map id (textNodes s)).
Proof.
  cbv zeta. intros H.
  assert (map id (textNodes (run Part000.handler 1 [AddText 1])) = ["1"; "1"])
    as E by (vm_compute; reflexivity).
  rewrite E in H. inversion H as [|? ? Hn _]. apply Hn. now left.
Qed.

(** ** Committing an edit *)

Lemma Forall2_map_self {A : Type} (R : A -> A -> Prop) (g : A -> A) (l : list A) :
  (forall a, R a (g a)) -> Forall2 R l (map g l).
Proof.
  intros Hg. induction l; simpl; constructor; auto.
Qed.

Lemma truthy_Some (sid : string) : sid <> "" -> truthy (Some sid) = true.
Proof.
  intros H. simpl. apply negb_true_iff. now apply String.eqb_neq.
Qed.

Lemma js_or_value (newText buffer : string) :
  newText <> "" \/ buffer = newText -> js_or (Some newText) buffer = newText.
Proof.
  intros H. simpl. destruct (newText =? "")%string eqn:E; auto.
  apply String.eqb_eq in E. destruct H as [H|H]; congruence.
Qed.

(** The blur handler of [part_000] on its own: with the non-empty id [sid]
    selected and called with the input value [newText], it writes
    [newText] into every object with that id, together with the current
    global font size and colour, and clears its [isEditing] flag, leaving
    the other objects as they are, whenever [newText] is not empty or the
    edit buffer [editText] is [newText] as well.  The handler writes
    [textInputRef.current?.value || editText]. *)
Theorem commitEdit_writes_overlay_text (s : State) (sid newText : string) :
  selectedId s = Some sid -> sid <> "" ->
  newText <> "" \/ editText s = newText ->
  let s' := step (component part_000) s (InputBlur (Some newText)) in
  Forall2 (committed sid newText s) (textNodes s) (textNodes s').
Proof.
  intros Hsel Hsid Htext. cbv zeta.
  unfold step. rewrite dispatch_textNodes.
  unfold_handlers.
  rewrite Hsel, (truthy_Some sid Hsid), (js_or_value newText (editText s) Htext).
  simpl.
  apply Forall2_map_self. intros a. unfold committed.
  destruct (id a =? sid)%string; simpl; auto 10.
Qed.

Lemma commitEdit_writes_overlay_text_witness :
  let s := run Part000.handler 1 [TextDoubleClick (on_text "1")] in
  let s' := step (component part_000) s (InputBlur (Some "Hello")) in
  let cleared := step (component part_000) s (InputChange "") in
  let cleared' := step (component part_000) cleared (InputBlur (Some "")) in
  Forall2 (committed "1" "Hello" s) (textNodes s) (textNodes s')
  /\ Forall2 (committed "1" "" cleared) (textNodes cleared) (textNodes cleared').
Proof.
  cbv zeta. split.
  - apply commitEdit_writes_overlay_text.
    + vm_compute. reflexivity.
    + discriminate.
    + left. discriminate.
  - apply commitEdit_writes_overlay_text.
    + vm_compute. reflexivity.
    + discriminate.
    + right. vm_compute. reflexivity.
Defined.

(** The fallback of the handler of [part_000]: called with the empty value
    while the edit buffer still holds the staged text, it writes the buffer.
    No page is ever in that situation: the input holds the buffer
    ([page_sync_reachable] below). *)
Lemma blur_handler_falls_back_to_buffer :
  let s := run Part000.handler 1 [TextDoubleClick (on_text "1")] in
  let s' := step (component part_000) s (InputBlur (Some "")) in
  selectedId s = Some "1"
  /\ ~ (forall n, In n (textNodes s') -> id n = "1" -> text n = "").
Proof.
  cbv zeta. split; [vm_compute; reflexivity|].
  intros H.
  assert (forallb (fun n => negb (id n =? "1")%string || (text n =? "")%string)
            (textNodes
               (step (component part_000)
                  (run Part000.handler 1 [TextDoubleClick (on_text "1")])
                  (InputBlur (Some "")))) = true) as C.
  { apply forallb_forall. intros n Hn.
    destruct (id n =? "1")%string eqn:E; simpl; auto.
    apply String.eqb_eq in E. apply String.eqb_eq. now apply H. }
  vm_compute in C. discriminate.
Qed.

(** In [App.tsx] the overlay input is controlled by [editText], and the
    handler writes [editText]: there the commit writes the overlay's text,
    empty or not. *)
Lemma App_commitEdit_writes_editText (s : State) (sid : string) (value : option string) :
  selectedId s = Some sid -> sid <> "" ->
  let s' := step (component App_tsx) s (InputBlur value) in
  Forall2 (committed sid (editText s) s) (textNodes s) (textNodes s').
Proof.
  intros Hsel Hsid. cbv zeta.
  unfold step. rewrite dispatch_textNodes.
  unfold_handlers. rewrite Hsel.
  apply String.eqb_neq in Hsid. rewrite Hsid. simpl.
  apply Forall2_map_self. intros a. unfold committed.
  destruct (id a =? sid)%string; simpl; auto 10.
Qed.

(** [onChange] of the overlay input keeps the edit buffer equal to the
    input's value. *)
Lemma onChange_syncs_editText (f : source_file) (s : State) (value : string) :
  editText (step (component f) s (InputChange value)) = value.
Proof. destruct f; reflexivity. Qed.

(** ** Selection and time travel *)

(** C6, evaluated on [App.tsx]: [undo()] and [redo()] install the snapshot
    and leave [selectedId] as it was ("2"), where the claim wants [null]. *)
Theorem App_undo_redo_keep_selection :
  let s := run App.handler 1 [AddText 2] in
  let u := step (component App_tsx) s Undo in
  let r := step (component App_tsx) u Redo in
  (map id (textNodes s) = ["1"; "2"] /\ selectedId s = Some "2")
  /\ (map id (textNodes u) = ["1"] /\ selectedId u = Some "2")
  /\ (map id (textNodes r) = ["1"; "2"] /\ selectedId r = Some "2").
Proof.
  cbv zeta. vm_compute. repeat split; reflexivity.
Qed.

(** In [part_000] a snapshot installed by [undo()] or [redo()] comes with
    [selectedId = null]. *)
Lemma Part000_undo_redo_clear_selection (s : State) :
  reachable (component part_000) any_event s ->
  (0 < historyIndex s -> selectedId (step (component part_000) s Undo) = None)
  /\ (historyIndex s < Z.of_nat (List.length (history s)) - 1 ->
      selectedId (step (component part_000) s Redo) = None).
Proof.
  intros R. pose proof (reachable_hist_ok _ _ _ R) as H.
  pose proof (index_Some _ _ _ H) as Hr. split; intros Hc.
  - destruct (index_in_range (history s) (historyIndex s - 1)) as [entry He];
      [lia|].
    now rewrite (undo_installs part_000 s entry Hc He).
  - destruct (index_in_range (history s) (historyIndex s + 1)) as [entry He];
      [lia|].
    now rewrite (redo_installs part_000 s entry Hc He).
Qed.

(** C2, evaluated on [App.tsx]: right after mounting, [undo()] installs the
    empty first snapshot while [selectedId] still names the object "1",
    which is no longer in the list. *)
Theorem App_selection_dangles_after_undo :
  let s := run App.handler 1 [Undo] in
  textNodes s = [] /\ selectedId s = Some "1" /\ ~ selection_valid s.
Proof.
  cbv zeta.
  assert (textNodes (run App.handler 1 [Undo]) = []) as Et
    by (vm_compute; reflexivity).
  assert (selectedId (run App.handler 1 [Undo]) = Some "1") as Es
    by (vm_compute; reflexivity).
  split; [exact Et|]. split; [exact Es|].
  unfold selection_valid. rewrite Es, Et. simpl. tauto.
Qed.

Lemma find_id_In (tid : string) (l : list TextNode) (node : TextNode) :
  find (fun n => (id n =? tid)%string) l = Some node -> In tid (map id l).
Proof.
  intros H. apply find_some in H. destruct H as [Hin Heq].
  apply String.eqb_eq in Heq. subst tid. now apply in_map.
Qed.

Lemma selection_valid_step (s : State) (e : event) :
  click_on_node s e -> selection_valid s ->
  selection_valid (step (component part_000) s e).
Proof.
  intros Hok Hsel. unfold selection_valid, step in *.
  rewrite dispatch_selectedId, dispatch_textNodes. revert Hsel.
  destruct e; unfold_handlers; guard_cases; simpl in *;
    try rewrite map_id_same by same_ids; auto;
    try (destruct (selectedId s); now auto);
    intros _;
    try match goal with
    | E : find _ _ = Some _ |- In _ _ => exact (find_id_In _ _ _ E)
    | |- In _ (map id (_ ++ _)) =>
        rewrite map_app; apply in_or_app; right; now left
    | E : (_ =? "text-node")%string = true |- _ =>
        apply String.eqb_eq in E; now apply Hok
    end.
Qed.

(** In [part_000], when clicks on a text node land on nodes of the list,
    [selectedId] is [null] or an id of the list after each event. *)
Lemma Part000_selection_valid (s : State) :
  reachable (component part_000) click_on_node s -> selection_valid s.
Proof.
  induction 1 as [now _|s e R IH Hok].
  - rewrite mount_state. unfold selection_valid. simpl. now left.
  - now apply selection_valid_step.
Qed.

(** ** Editing flags *)

(** C5, evaluated on [App.tsx]: the double-click handler sets [isEditing]
    on its target and leaves the flag of the other objects alone, so two
    double clicks leave two objects editing.  The second run gets there
    through gestures only: the new object is dragged aside, "1" is edited
    and committed, the commit is undone (which brings back "1" as editing),
    and "2" is double-clicked. *)
Theorem App_two_objects_editing :
  let s := run App.handler 1
             [AddText 2; TextDoubleClick (on_text "1");
              TextDoubleClick (on_text "2")] in
  let s' := run App.handler 1
              [AddText 2; DragEnd (dragged_to "2" 200 200);
               TextDoubleClick (on_text "1"); InputBlur None; Undo;
               TextDoubleClick (dragged_to "2" 200 200)] in
  map (fun n => (id n, isEditing n)) (textNodes s)
    = [("1", Some true); ("2", Some true)]
  /\ map (fun n => (id n, isEditing n)) (textNodes s')
    = [("1", Some true); ("2", Some true)]
  /\ ~ at_most_one_editing (textNodes s)
  /\ ~ at_most_one_editing (textNodes s').
Proof.
  cbv zeta. split; [vm_compute; reflexivity|].
  split; [vm_compute; reflexivity|].
  unfold at_most_one_editing.
  assert (List.length (filter editing (textNodes (run App.handler 1
            [AddText 2; TextDoubleClick (on_text "1");
             TextDoubleClick (on_text "2")]))) = 2%nat) as E
    by (vm_compute; reflexivity).
  assert (List.length (filter editing (textNodes (run App.handler 1
            [AddText 2; DragEnd (dragged_to "2" 200 200);
             TextDoubleClick (on_text "1"); InputBlur None; Undo;
             TextDoubleClick (dragged_to "2" 200 200)]))) = 2%nat) as E'
    by (vm_compute; reflexivity).
  rewrite E, E'. lia.
Qed.

(** In [part_000] the double-click handler, when it finds its target, sets
    the flag of every object: [true] on the objects with the target's id and
    [false] on all others. *)
Lemma Part000_beginEdit_exclusive (s : State) (e : Target) (node : TextNode) :
  isDragging s = false ->
  find (fun n => (id n =? t_id e)%string) (textNodes s) = Some node ->
  forall n, In n (textNodes (step (component part_000) s (TextDoubleClick e))) ->
  isEditing n = Some (id n =? t_id e)%string.
Proof.
  intros Hd Hf n. unfold step. rewrite dispatch_textNodes.
  unfold_handlers. rewrite Hd, Hf. simpl.
  intros Hin. apply in_map_iff in Hin. destruct Hin as (m & <- & _).
  destruct (id m =? t_id e)%string eqn:E; simpl; now rewrite E.
Qed.

Lemma editing_map_le (g : TextNode -> TextNode) (l : list TextNode) :
  (forall n, editing (g n) = true -> editing n = true) ->
  (List.length (filter editing (map g l)) <= List.length (filter editing l))%nat.
Proof.
  intros Hg. induction l as [|a l IH]; simpl; auto.
  destruct (editing (g a)) eqn:E.
  - rewrite (Hg a E). simpl. lia.
  - destruct (editing a); simpl; lia.
Qed.

Lemma editing_filter_le (p : TextNode -> bool) (l : list TextNode) :
  (List.length (filter editing (filter p l)) <= List.length (filter editing l))%nat.
Proof.
  induction l as [|a l IH]; simpl; auto.
  destruct (p a); simpl; destruct (editing a); simpl; lia.
Qed.

Lemma beginEdit_elsewhere (tid : string) (l : list TextNode) :
  ~ In tid (map id l) ->
  filter editing
    (map (fun n => if (id n =? tid)%string
                   then spread_isEditing n true
                   else spread_isEditing n false) l) = [].
Proof.
  induction l as [|a l IH]; simpl; auto.
  intros H. destruct (id a =? tid)%string eqn:E.
  - apply String.eqb_eq in E. tauto.
  - simpl. apply IH. tauto.
Qed.

Lemma beginEdit_at_most_one (tid : string) (l : list TextNode) :
  NoDup (map id l) ->
  at_most_one_editing
    (map (fun n => if (id n =? tid)%string
                   then spread_isEditing n true
                   else spread_isEditing n false) l).
Proof.
  unfold at_most_one_editing.
  induction l as [|a l IH]; simpl; auto.
  intros H. inversion H as [|? ? Hn Hd]; subst.
  destruct (id a =? tid)%string eqn:E; simpl.
  - apply String.eqb_eq in E. subst tid.
    rewrite beginEdit_elsewhere; auto.
  - now apply IH.
Qed.

Ltac flag_kept :=
  intros ?; simpl;
  repeat match goal with
  | |- context [if ?c then _ else _] => destruct c
  end; simpl; auto; intros; discriminate.

Lemma at_most_one_editing_step (s : State) (e : event) :
  ids_unique (textNodes s) ->
  at_most_one_editing (textNodes s) ->
  Forall at_most_one_editing (history s) ->
  at_most_one_editing (nodes_after (component part_000 s e) (textNodes s)).
Proof.
  intros Hids Hlive Hlog.
  destruct e; unfold_handlers; guard_cases; simpl; auto;
    try match goal with
    | E : index _ _ = Some ?entry |- at_most_one_editing (cloneDeep ?entry) =>
        exact (index_Forall at_most_one_editing _ _ _ Hlog E)
    | |- at_most_one_editing (map (fun n => if _ then spread_isEditing n true
                                           else spread_isEditing n false) _) =>
        now apply beginEdit_at_most_one
    | |- at_most_one_editing (filter _ _) =>
        unfold at_most_one_editing in *;
        eapply Nat.le_trans; [apply editing_filter_le | assumption]
    | |- at_most_one_editing (_ ++ _) =>
        unfold at_most_one_editing in *;
        rewrite filter_app, length_app; simpl; lia
    | |- at_most_one_editing (map _ _) =>
        unfold at_most_one_editing in *;
        eapply Nat.le_trans; [apply editing_map_le; flag_kept | assumption]
    end.
Qed.

(** In [part_000], as long as ids are fresh, at most one object has
    [isEditing = true] after each event. *)
Lemma Part000_at_most_one_editing (s : State) :
  reachable (component part_000) fresh_add s ->
  at_most_one_editing (textNodes s)
  /\ Forall at_most_one_editing (history s).
Proof.
  induction 1 as [now _|s e R IH Hok].
  - rewrite mount_state. simpl. unfold at_most_one_editing. simpl.
    repeat constructor.
  - destruct IH as (Hlive & Hlog).
    destruct (ids_unique_reachable part_000 s R) as [Hids _].
    pose proof (at_most_one_editing_step s e Hids Hlive Hlog) as Hn.
    unfold step. rewrite <- dispatch_textNodes in Hn.
    split; [exact Hn|].
    apply dispatch_keeps_log; auto. apply (handler_keeps_history part_000).
Qed.

(** ** The scenarios of the specification, run on [part_000] *)

(** Scenario A: one default object, then "Add Text": two objects, the new
    one selected, with the global size and colour. *)
Example scenario_A :
  let s := run Part000.handler 1 [AddText 2] in
  map id (textNodes s) = ["1"; "2"] /\ selectedId s = Some "2"
  /\ map fontSize (textNodes s) = [num 20; num 20]
  /\ map fontColor (textNodes s) = ["#000000"; "#000000"].
Proof. vm_compute. auto. Qed.

(** Scenario B: a resize that would give a font size of 3 is clamped to 5. *)
Example scenario_B :
  let shrink :=
    mkTarget false "text-node" "1" (num 50) (num 50)
      (Q2Qc (3 # 20)) (Q2Qc (3 # 20)) (num 100) (num 20) in
  let s := run Part000.handler 1 [TransformEnd shrink] in
  map fontSize (textNodes s) = [num 5].
Proof. vm_compute. reflexivity. Qed.

(** Scenario C: a move, undone and redone. *)
Example scenario_C :
  let moved := run Part000.handler 1 [DragEnd (dragged_to "1" 120 80)] in
  let undone := step Part000.handler moved Undo in
  let redone := step Part000.handler undone Redo in
  map (fun n => (x n, y n)) (textNodes moved) = [(num 120, num 80)]
  /\ map (fun n => (x n, y n)) (textNodes undone) = [(num 50, num 50)]
  /\ map (fun n => (x n, y n)) (textNodes redone) = [(num 120, num 80)].
Proof. vm_compute. auto. Qed.

(** Scenario D: an edit is begun and committed, then the object removed. *)
Example scenario_D :
  let edited := run Part000.handler 1
                  [TextDoubleClick (on_text "1"); InputChange "Hello";
                   InputBlur (Some "Hello")] in
  let removed := step Part000.handler edited DeleteSelected in
  map text (textNodes edited) = ["Hello"]
  /\ textNodes removed = [] /\ selectedId removed = None.
Proof. vm_compute. auto. Qed.

(** Scenario E: two undos, then "Add Text": the log is the first snapshot
    followed by the new one. *)
Example scenario_E :
  let s := run Part000.handler 1 [AddText 2; Undo; Undo; AddText 3] in
  map (map id) (history s) = [[]; ["3"]] /\ historyIndex s = 1.
Proof. vm_compute. auto. Qed.

(** * Further properties of the component *)

(** ** The log *)

Lemma index_app1 {A : Type} (arr more : list A) (i : Z) :
  i < Z.of_nat (List.length arr) -> index (arr ++ more) i = index arr i.
Proof.
  intros H. unfold index. destruct (i <? 0) eqn:E; auto.
  apply Z.ltb_ge in E. apply nth_error_app1. lia.
Qed.

Lemma index_firstn {A : Type} (arr : list A) (k : nat) (i : Z) :
  i < Z.of_nat k -> index (firstn k arr) i = index arr i.
Proof.
  intros H. unfold index. destruct (i <? 0) eqn:E; auto.
  apply Z.ltb_ge in E. rewrite nth_error_firstn.
  destruct (Nat.ltb_spec (Z.to_nat i) k); auto. lia.
Qed.

Lemma nodes_eq_dec (a b : list TextNode) : a = b \/ a <> b.
Proof.
  destruct (nodes_eqb a b) eqn:E.
  - left. now apply nodes_eqb_eq.
  - right. intros ->. rewrite nodes_eqb_refl in E. discriminate.
Qed.

(** What a mutation does to the log: nothing when the list is as before,
    and otherwise a cut after the cursor and one new entry. *)
Lemma mutation_step_log (f : source_file) (s : State) (e : event) :
  hist_ok s -> is_mutation e = true ->
  let s' := step (component f) s e in
  (textNodes s' = textNodes s /\ history s' = history s
   /\ historyIndex s' = historyIndex s)
  \/ (textNodes s' <> textNodes s
      /\ history s' =
           firstn (Z.to_nat (historyIndex s + 1)) (history s) ++ [textNodes s']
      /\ historyIndex s' = historyIndex s + 1).
Proof.
  intros H M. cbv zeta.
  pose proof (index_Some _ _ _ H) as Hr.
  pose proof (commit_history_frame _ s (handler_keeps_history f s e)) as Hh.
  pose proof (commit_historyIndex_frame _ s (handler_keeps_cursor f s e M)) as Hc.
  set (s1 := commit s (component f s e)) in *.
  destruct (existsb sets_textNodes (component f s e)) eqn:T.
  2:{ left. unfold step, dispatch. rewrite T. fold s1.
      repeat split; auto. now apply commit_textNodes_frame. }
  assert (step (component f) s e = commit s1 (recordHistory s1)) as Hs.
  { unfold step, dispatch. now rewrite T. }
  rewrite Hs.
  destruct (nodes_eq_dec (textNodes s1) (textNodes s)) as [E|E].
  - left. rewrite effect_idle.
    + auto.
    + unfold hist_ok. now rewrite Hh, Hc, E.
  - right. destruct (effect_frame s1) as [Ht _]. cbv zeta in Ht.
    destruct (effect_records s1) as [E1 E2].
    { rewrite Hc. lia. }
    { rewrite Hh, Hc, H. congruence. }
    cbv zeta in E1, E2. rewrite Hh, Hc in E1. rewrite Ht.
    repeat split; auto.
    rewrite E2, E1, length_app, length_firstn. simpl. lia.
Qed.

(** What [undo] and [redo] do to the log: nothing. *)
Lemma travel_keeps_log (f : source_file) (s : State) (e : event) :
  hist_ok s -> is_mutation e = false ->
  history (step (component f) s e) = history s.
Proof.
  intros H M. pose proof (index_Some _ _ _ H) as Hr.
  destruct e; try discriminate.
  - destruct (Z_lt_le_dec 0 (historyIndex s)) as [Hc|Hc].
    + destruct (index_in_range (history s) (historyIndex s - 1)) as [entry He];
        [lia|].
      now rewrite (undo_installs f s entry Hc He).
    + now rewrite undo_idle.
  - destruct (Z_lt_le_dec (historyIndex s)
                (Z.of_nat (List.length (history s)) - 1)) as [Hc|Hc].
    + destruct (index_in_range (history s) (historyIndex s + 1)) as [entry He];
        [lia|].
      now rewrite (redo_installs f s entry Hc He).
    + now rewrite redo_idle.
Qed.

Lemma adjacent_distinct_record (log : list (list TextNode)) (k : nat)
  (a b : list TextNode) :
  adjacent_distinct log -> nth_error log k = Some a -> a <> b ->
  adjacent_distinct (firstn (S k) log ++ [b]).
Proof.
  intros Hlog Ha Hab i u v Hu Hv.
  assert (k < List.length log)%nat as Hk
    by (apply nth_error_Some; congruence).
  assert (List.length (firstn (S k) log) = S k) as Hl
    by (rewrite length_firstn; lia).
  destruct (Nat.lt_ge_cases (S i) (S k)) as [Hi|Hi].
  - rewrite nth_error_app1 in Hu, Hv by lia.
    rewrite nth_error_firstn in Hu, Hv.
    destruct (Nat.ltb_spec i (S k)); [|lia].
    destruct (Nat.ltb_spec (S i) (S k)); [|lia].
    now apply (Hlog i).
  - destruct (Nat.eq_dec i k) as [->|Hne].
    + rewrite nth_error_app1 in Hu by lia.
      rewrite nth_error_firstn in Hu.
      destruct (Nat.ltb_spec k (S k)); [|lia].
      rewrite nth_error_app2 in Hv by lia.
      rewrite Hl, Nat.sub_diag in Hv. simpl in Hv.
      congruence.
    + assert (nth_error (firstn (S k) log ++ [b]) (S i) = None) as N.
      { apply nth_error_None. rewrite length_app, Hl. simpl. lia. }
      congruence.
Qed.

Lemma step_log_shape (f : source_file) (s : State) (e : event) :
  hist_ok s ->
  index (history s) 0 = Some [] -> adjacent_distinct (history s) ->
  index (history (step (component f) s e)) 0 = Some []
  /\ adjacent_distinct (history (step (component f) s e)).
Proof.
  intros H Hhead Hadj. pose proof (index_Some _ _ _ H) as Hr.
  destruct (is_mutation e) eqn:M.
  - destruct (mutation_step_log f s e H M) as [(_ & -> & _)|(Hne & -> & Hc)];
      auto.
    replace (Z.to_nat (historyIndex s + 1)) with (S (Z.to_nat (historyIndex s)))
      by lia.
    split.
    + rewrite index_app1, index_firstn; auto; try lia.
      rewrite length_firstn. lia.
    + unfold hist_ok, index in H.
      destruct (historyIndex s <? 0); [discriminate|].
      eapply adjacent_distinct_record; eauto.
  - now rewrite travel_keeps_log.
Qed.

Lemma history_log_shape_aux (f : source_file) (s : State) :
  reachable (component f) any_event s ->
  hist_ok s /\ index (history s) 0 = Some [].
Proof.
  intros R. split; [exact (reachable_hist_ok _ _ _ R)|].
  induction R as [now _|s e R IH Hok].
  - rewrite mount_state. reflexivity.
  - pose proof (reachable_hist_ok _ _ _ R) as Hs.
    destruct (index_Some _ _ _ Hs) as [Hlo Hhi].
    destruct (is_mutation e) eqn:M.
    + destruct (mutation_step_log f s e Hs M) as [(_ & -> & _)|(_ & -> & _)];
        auto.
      rewrite index_app1, index_firstn; auto; try lia.
      rewrite length_firstn. lia.
    + now rewrite travel_keeps_log.
Qed.

(** X1: in every state the component reaches (either file, whatever the
    events), the cursor is inside the log, the entry under it is the live
    object list, the first entry of the log is the empty list recorded at
    mount, and no two neighbouring entries are equal. *)
Theorem history_log_invariant (f : source_file) (ok : State -> event -> Prop)
  (s : State) :
  reachable (component f) ok s ->
  0 <= historyIndex s < Z.of_nat (List.length (history s))
  /\ index (history s) (historyIndex s) = Some (textNodes s)
  /\ index (history s) 0 = Some []
  /\ adjacent_distinct (history s).
Proof.
  intros R.
  pose proof (reachable_hist_ok f ok s R) as H.
  split; [exact (index_Some _ _ _ H)|]. split; [exact H|].
  induction R as [now _|s e R IH Hok].
  - rewrite mount_state. simpl. split; [reflexivity|].
    intros [|[|i]] a b Ha Hb; simpl in *; try discriminate.
    injection Ha as <-. injection Hb as <-. discriminate.
  - pose proof (reachable_hist_ok f ok s R) as Hs.
    destruct (IH Hs) as [Hhead Hadj].
    now apply step_log_shape.
Qed.

Lemma history_log_invariant_witness :
  let s := run App.handler 1 [AddText 2; DragEnd (dragged_to "2" 200 200); Undo] in
  0 <= historyIndex s < Z.of_nat (List.length (history s))
  /\ index (history s) (historyIndex s) = Some (textNodes s)
  /\ index (history s) 0 = Some []
  /\ adjacent_distinct (history s).
Proof.
  cbv zeta. apply (history_log_invariant App_tsx any_event).
  unfold run. simpl fold_left.
  repeat apply reachable_step; try exact I.
  apply reachable_mount. exact I.
Defined.

(** X2: in every state the component reaches (either file), a mutation
    that changes the object list can be undone and redone: [undo()] right
    after it gives back the list there was before, and [redo()] after that
    gives the changed list again. *)
Theorem undo_reverts_mutation (f : source_file) (s : State) (e : event) :
  reachable (component f) any_event s ->
  is_mutation e = true ->
  textNodes (step (component f) s e) <> textNodes s ->
  let s' := step (component f) s e in
  let u := step (component f) s' Undo in
  textNodes u = textNodes s
  /\ textNodes (step (component f) u Redo) = textNodes s'.
Proof.
  intros R M Hne. cbv zeta.
  pose proof (reachable_hist_ok _ _ _ R) as H.
  pose proof (index_Some _ _ _ H) as Hr.
  destruct (mutation_step_log f s e H M) as [(E & _)|(_ & Eh & Ec)];
    [contradiction|].
  set (s' := step (component f) s e) in *.
  assert (index (history s') (historyIndex s' - 1) = Some (textNodes s)) as Hu.
  { rewrite Eh, Ec. replace (historyIndex s + 1 - 1) with (historyIndex s) by lia.
    rewrite index_app1, index_firstn; auto; try lia.
    rewrite length_firstn. lia. }
  rewrite (undo_installs f s' (textNodes s)); [|lia|exact Hu].
  split; [reflexivity|].
  assert (hist_ok s') as H' by (now apply step_hist_ok).
  pose proof (index_Some _ _ _ H') as Hr'.
  rewrite (redo_installs f _ (textNodes s')); simpl; auto.
  - lia.
  - replace (historyIndex s' - 1 + 1) with (historyIndex s') by lia. exact H'.
Qed.

Lemma undo_reverts_mutation_witness :
  let s := run Part000.handler 1 [AddText 2] in
  let e := DeleteSelected in
  let s' := step (component part_000) s e in
  let u := step (component part_000) s' Undo in
  (map id (textNodes s) = ["1"; "2"] /\ map id (textNodes s') = ["1"])
  /\ textNodes u = textNodes s
  /\ textNodes (step (component part_000) u Redo) = textNodes s'.
Proof.
  cbv zeta. split; [vm_compute; split; reflexivity|].
  apply (undo_reverts_mutation part_000).
  - unfold run. simpl fold_left.
    repeat apply reachable_step; try exact I.
    apply reachable_mount. exact I.
  - reflexivity.
  - vm_compute. discriminate.
Defined.

(** X3: in every state the component reaches (either file), a mutation
    that leaves the object list as it was (a drag that ends where it
    started, a colour picked again, a commit of the same text) adds nothing
    to the log and does not move the cursor, so the entries that [redo()]
    can reach stay reachable. *)
Theorem idle_mutation_keeps_log (f : source_file) (s : State) (e : event) :
  reachable (component f) any_event s ->
  is_mutation e = true ->
  textNodes (step (component f) s e) = textNodes s ->
  history (step (component f) s e) = history s
  /\ historyIndex (step (component f) s e) = historyIndex s.
Proof.
  intros R M E.
  pose proof (reachable_hist_ok _ _ _ R) as H.
  destruct (mutation_step_log f s e H M) as [(_ & Eh & Ec)|(Hne & _)];
    [auto | contradiction].
Qed.

Lemma idle_mutation_keeps_log_witness :
  let s := run App.handler 1 [AddText 2; Undo] in
  let e := DragEnd (dragged_to "1" 50 50) in
  (historyIndex s = 1 /\ List.length (history s) = 3%nat)
  /\ history (step (component App_tsx) s e) = history s
  /\ historyIndex (step (component App_tsx) s e) = historyIndex s.
Proof.
  cbv zeta. split; [vm_compute; split; reflexivity|].
  apply (idle_mutation_keeps_log App_tsx).
  - unfold run. simpl fold_left.
    repeat apply reachable_step; try exact I.
    apply reachable_mount. exact I.
  - reflexivity.
  - vm_compute. reflexivity.
Defined.

(** X4: in every state the component reaches (either file), [undo()] and
    [redo()] never rewrite the log; when the cursor is above 0, [undo()]
    moves it back by one and installs the entry it then points to, and when
    it is below the tail, [redo()] moves it forward by one and installs that
    entry. *)
Theorem time_travel_moves_cursor_only (f : source_file) (s : State) :
  reachable (component f) any_event s ->
  let u := step (component f) s Undo in
  let r := step (component f) s Redo in
  history u = history s /\ history r = history s
  /\ (0 < historyIndex s ->
      historyIndex u = historyIndex s - 1
      /\ index (history s) (historyIndex s - 1) = Some (textNodes u))
  /\ (historyIndex s < Z.of_nat (List.length (history s)) - 1 ->
      historyIndex r = historyIndex s + 1
      /\ index (history s) (historyIndex s + 1) = Some (textNodes r)).
Proof.
  intros R. cbv zeta.
  pose proof (reachable_hist_ok _ _ _ R) as H.
  pose proof (index_Some _ _ _ H) as Hr.
  split; [now apply travel_keeps_log|].
  split; [now apply travel_keeps_log|].
  split; intros Hc.
  - destruct (index_in_range (history s) (historyIndex s - 1)) as [entry He];
      [lia|].
    rewrite (undo_installs f s entry Hc He). simpl. auto.
  - destruct (index_in_range (history s) (historyIndex s + 1)) as [entry He];
      [lia|].
    rewrite (redo_installs f s entry Hc He). simpl. auto.
Qed.

Lemma time_travel_moves_cursor_only_witness :
  let s := run Part000.handler 1 [AddText 2; Undo] in
  let u := step (component part_000) s Undo in
  let r := step (component part_000) s Redo in
  (0 < historyIndex s < Z.of_nat (List.length (history s)) - 1)
  /\ history u = history s /\ history r = history s
  /\ (0 < historyIndex s ->
      historyIndex u = historyIndex s - 1
      /\ index (history s) (historyIndex s - 1) = Some (textNodes u))
  /\ (historyIndex s < Z.of_nat (List.length (history s)) - 1 ->
      historyIndex r = historyIndex s + 1
      /\ index (history s) (historyIndex s + 1) = Some (textNodes r)).
Proof.
  cbv zeta. split; [vm_compute; split; reflexivity|].
  apply (time_travel_moves_cursor_only part_000).
  unfold run. simpl fold_left.
  repeat apply reachable_step; try exact I.
  apply reachable_mount. exact I.
Defined.

(** ** Repeated undo and redo *)

Lemma undo_iter (f : source_file) (k : nat) (s : State) :
  hist_ok s -> Z.of_nat k <= historyIndex s ->
  let u := repeat_step (component f) Undo k s in
  hist_ok u /\ history u = history s
  /\ historyIndex u = historyIndex s - Z.of_nat k.
Proof.
  intros H. induction k as [|k IH]; intros Hk; cbv zeta.
  - simpl. repeat split; auto. lia.
  - unfold repeat_step in *. simpl Nat.iter.
    destruct IH as (Hu & Eh & Ec); [lia|].
    set (u := Nat.iter k (fun st => step (component f) st Undo) s) in *.
    pose proof (index_Some _ _ _ Hu) as Hr.
    destruct (index_in_range (history u) (historyIndex u - 1)) as [entry He];
      [lia|].
    split; [now apply step_hist_ok|].
    rewrite (undo_installs f u entry); auto; [|lia]. simpl.
    split; [exact Eh | lia].
Qed.

Lemma redo_iter (f : source_file) (k : nat) (s : State) :
  hist_ok s ->
  historyIndex s + Z.of_nat k <= Z.of_nat (List.length (history s)) - 1 ->
  let r := repeat_step (component f) Redo k s in
  hist_ok r /\ history r = history s
  /\ historyIndex r = historyIndex s + Z.of_nat k.
Proof.
  intros H. induction k as [|k IH]; intros Hk; cbv zeta.
  - simpl. repeat split; auto. lia.
  - unfold repeat_step in *. simpl Nat.iter.
    destruct IH as (Hu & Eh & Ec); [lia|].
    set (r := Nat.iter k (fun st => step (component f) st Redo) s) in *.
    pose proof (index_Some _ _ _ Hu) as Hr.
    destruct (index_in_range (history r) (historyIndex r + 1)) as [entry He];
      [rewrite Eh; lia|].
    split; [now apply step_hist_ok|].
    rewrite (redo_installs f r entry); auto; [|rewrite Eh; lia]. simpl.
    split; [exact Eh | lia].
Qed.

(** X5: in every state the component reaches (either file), [k] undos
    followed by [k] redos, for any [k] up to the cursor position, give back
    the object list, the log and the cursor there were. *)
Theorem undos_then_redos_roundtrip (f : source_file) (s : State) (k : nat) :
  reachable (component f) any_event s ->
  Z.of_nat k <= historyIndex s ->
  let s' := repeat_step (component f) Redo k
              (repeat_step (component f) Undo k s) in
  textNodes s' = textNodes s
  /\ history s' = history s /\ historyIndex s' = historyIndex s.
Proof.
  intros R Hk. cbv zeta.
  pose proof (reachable_hist_ok _ _ _ R) as H.
  pose proof (index_Some _ _ _ H) as Hr.
  destruct (undo_iter f k s H Hk) as (Hu & Eh & Ec).
  set (u := repeat_step (component f) Undo k s) in *.
  destruct (redo_iter f k u Hu) as (Hr' & Eh' & Ec').
  { rewrite Eh, Ec. lia. }
  set (r := repeat_step (component f) Redo k u) in *.
  assert (historyIndex r = historyIndex s) as E by lia.
  assert (history r = history s) as E' by congruence.
  repeat split; auto.
  unfold hist_ok in Hr', H. rewrite E, E', H in Hr'. congruence.
Qed.

Lemma undos_then_redos_roundtrip_witness :
  let s := run Part000.handler 1
             [AddText 2; ColorChange "#ff0000"; DragEnd (dragged_to "2" 9 9)] in
  let s' := repeat_step (component part_000) Redo 3
              (repeat_step (component part_000) Undo 3 s) in
  historyIndex s = 4
  /\ textNodes s' = textNodes s
  /\ history s' = history s /\ historyIndex s' = historyIndex s.
Proof.
  cbv zeta. split; [vm_compute; reflexivity|].
  apply (undos_then_redos_roundtrip part_000).
  - unfold run. simpl fold_left.
    repeat apply reachable_step; try exact I.
    apply reachable_mount. exact I.
  - vm_compute. discriminate.
Defined.

(** X6: in every state the component reaches (either file), undoing as
    many times as the cursor position ends on the empty canvas: the first
    entry of the log is the empty list recorded before the first object was
    added, so even that object is undone. *)
Theorem undo_all_empties_canvas (f : source_file) (s : State) :
  reachable (component f) any_event s ->
  let u := repeat_step (component f) Undo (Z.to_nat (historyIndex s)) s in
  textNodes u = [] /\ historyIndex u = 0 /\ history u = history s.
Proof.
  intros R. cbv zeta.
  destruct (history_log_shape_aux f s R) as (H & Hhead).
  pose proof (index_Some _ _ _ H) as Hr.
  destruct (undo_iter f (Z.to_nat (historyIndex s)) s H) as (Hu & Eh & Ec);
    [lia|].
  set (u := repeat_step (component f) Undo (Z.to_nat (historyIndex s)) s) in *.
  assert (historyIndex u = 0) as E by lia.
  repeat split; auto.
  unfold hist_ok in Hu. rewrite E, Eh, Hhead in Hu. congruence.
Qed.

Lemma undo_all_empties_canvas_witness :
  let s := run App.handler 1 [AddText 2; FontSizeChange (num 30)] in
  let u := repeat_step (component App_tsx) Undo (Z.to_nat (historyIndex s)) s in
  historyIndex s = 3
  /\ textNodes u = [] /\ historyIndex u = 0 /\ history u = history s.
Proof.
  cbv zeta. split; [vm_compute; reflexivity|].
  apply (undo_all_empties_canvas App_tsx).
  unfold run. simpl fold_left.
  repeat apply reachable_step; try exact I.
  apply reachable_mount. exact I.
Defined.

(** ** Buttons and keys *)

Lemma undo_moves_cursor (f : source_file) (s : State) :
  0 < historyIndex s ->
  historyIndex (step (component f) s Undo) = historyIndex s - 1.
Proof.
  intros Hc.
  destruct (index (history s) (historyIndex s - 1)) as [entry|] eqn:He.
  - now rewrite (undo_installs f s entry Hc He).
  - unfold step, dispatch.
    assert ((historyIndex s >? 0) = true) as G by lia.
    destruct f; unfold_handlers; rewrite G, He; reflexivity.
Qed.

Lemma redo_moves_cursor (f : source_file) (s : State) :
  historyIndex s < Z.of_nat (List.length (history s)) - 1 ->
  historyIndex (step (component f) s Redo) = historyIndex s + 1.
Proof.
  intros Hc.
  destruct (index (history s) (historyIndex s + 1)) as [entry|] eqn:He.
  - now rewrite (redo_installs f s entry Hc He).
  - unfold step, dispatch.
    assert ((historyIndex s <? Z.of_nat (List.length (history s)) - 1) = true)
      as G by lia.
    destruct f; unfold_handlers; rewrite G, He; reflexivity.
Qed.

(** X7: in any state of either file, the Undo button is disabled exactly
    when [undo()] would leave the whole state as it is, and the Redo button
    exactly when [redo()] would. *)
Theorem buttons_disabled_iff_idle (f : source_file) (s : State) :
  (undoDisabled s = true <-> step (component f) s Undo = s)
  /\ (redoDisabled s = true <-> step (component f) s Redo = s).
Proof.
  unfold undoDisabled, redoDisabled. split; split; intros H.
  - apply undo_idle. lia.
  - destruct (historyIndex s <=? 0) eqn:E; auto.
    assert (0 < historyIndex s) as Hc by lia.
    pose proof (undo_moves_cursor f s Hc) as M. rewrite H in M. lia.
  - apply redo_idle. lia.
  - destruct (historyIndex s >=? _) eqn:E; auto.
    assert (historyIndex s < Z.of_nat (List.length (history s)) - 1) as Hc by lia.
    pose proof (redo_moves_cursor f s Hc) as M. rewrite H in M. lia.
Qed.

(** X8: in any state of either file, a key press changes the state only
    when Ctrl is held and the key is exactly "z" with the Undo button
    enabled, where it does what [undo()] does, or exactly "y" with the Redo
    button enabled, where it does what [redo()] does. *)
Theorem keyboard_shortcuts (f : source_file) (s : State) (ctrlKey : bool) (key : string) :
  key_step f s ctrlKey key <> s ->
  ctrlKey = true
  /\ ((key = "z" /\ undoDisabled s = false
       /\ key_step f s ctrlKey key = step (component f) s Undo)
      \/ (key = "y" /\ redoDisabled s = false
          /\ key_step f s ctrlKey key = step (component f) s Redo)).
Proof.
  unfold key_step, handleKeyDown. intros H.
  destruct ctrlKey; [|now contradiction H].
  split; [reflexivity|].
  destruct (key =? "z")%string eqn:Ez.
  - left. apply String.eqb_eq in Ez. simpl in *.
    repeat split; auto.
    destruct (undoDisabled s) eqn:D; auto.
    unfold undoDisabled in D.
    exfalso. apply H. apply undo_idle. lia.
  - destruct (key =? "y")%string eqn:Ey; [|now contradiction H].
    right. apply String.eqb_eq in Ey. simpl in *.
    repeat split; auto.
    destruct (redoDisabled s) eqn:D; auto.
    unfold redoDisabled in D.
    exfalso. apply H. apply redo_idle. lia.
Qed.

Lemma keyboard_shortcuts_witness :
  let s := run Part000.handler 1 [] in
  key_step part_000 s true "z" <> s
  /\ (true = true
      /\ (("z" = "z" /\ undoDisabled s = false
           /\ key_step part_000 s true "z" = step (component part_000) s Undo)
          \/ ("z" = "y" /\ redoDisabled s = false
              /\ key_step part_000 s true "z" = step (component part_000) s Redo))).
Proof.
  cbv zeta.
  assert (key_step part_000 (run Part000.handler 1 []) true "z"
          <> run Part000.handler 1 []) as N
    by (vm_compute; discriminate).
  split; [exact N|].
  exact (keyboard_shortcuts part_000 _ true "z" N).
Defined.

(** ** Gestures *)

Lemma map_no_match (tid : string) (g : TextNode -> TextNode) (l : list TextNode) :
  ~ In tid (map id l) ->
  map (fun node => if (id node =? tid)%string then g node else node) l = l.
Proof.
  induction l as [|a l IH]; simpl; auto.
  intros H. destruct (id a =? tid)%string eqn:E.
  - apply String.eqb_eq in E. tauto.
  - f_equal. apply IH. tauto.
Qed.

Lemma find_no_match (tid : string) (l : list TextNode) :
  ~ In tid (map id l) -> find (fun n => (id n =? tid)%string) l = None.
Proof.
  intros H. destruct (find _ l) eqn:E; auto.
  apply find_id_In in E. contradiction.
Qed.

(** X9: in every state the component reaches (either file), a drag end, a
    live transform, a transform end or a double click whose target id is
    not in the object list changes neither the list nor the selection, the
    edit buffer, the global style, the log or the cursor. *)
Theorem gesture_on_missing_id_is_idle (f : source_file) (s : State) (e : event)
  (t : Target) :
  reachable (component f) any_event s ->
  gesture_target e = Some t ->
  ~ In (t_id t) (map id (textNodes s)) ->
  let s' := step (component f) s e in
  textNodes s' = textNodes s /\ selectedId s' = selectedId s
  /\ editText s' = editText s /\ currentColor s' = currentColor s
  /\ currentFontSize s' = currentFontSize s
  /\ history s' = history s /\ historyIndex s' = historyIndex s.
Proof.
  intros R Ht Hid. cbv zeta.
  pose proof (reachable_hist_ok _ _ _ R) as H.
  pose proof (find_no_match _ _ Hid) as Hf.
  assert (is_mutation e = true) as M by (destruct e; try discriminate; auto).
  assert (textNodes (step (component f) s e) = textNodes s) as Et.
  { unfold step. rewrite dispatch_textNodes.
    destruct f, e; try discriminate; injection Ht as ->;
      unfold_handlers; rewrite ?Hf; guard_cases; simpl;
      rewrite ?map_no_match; auto. }
  destruct (mutation_step_log f s e H M) as [(_ & Eh & Ec)|(Hne & _)];
    [|contradiction].
  split; [exact Et|].
  unfold step in *.
  destruct (dispatch_frame s (component f s e)) as (_ & -> & -> & -> & -> & _).
  destruct f, e; try discriminate; injection Ht as ->;
    unfold_handlers; rewrite ?Hf; guard_cases; simpl; auto 10.
Qed.

Lemma gesture_on_missing_id_is_idle_witness :
  let s := run Part000.handler 1 [AddText 2; DeleteSelected] in
  let e := DragEnd (dragged_to "2" 300 300) in
  let s' := step (component part_000) s e in
  map id (textNodes s) = ["1"]
  /\ (textNodes s' = textNodes s /\ selectedId s' = selectedId s
      /\ editText s' = editText s /\ currentColor s' = currentColor s
      /\ currentFontSize s' = currentFontSize s
      /\ history s' = history s /\ historyIndex s' = historyIndex s).
Proof.
  cbv zeta. split; [vm_compute; reflexivity|].
  apply (gesture_on_missing_id_is_idle part_000 _ _ (dragged_to "2" 300 300)).
  - unfold run. simpl fold_left.
    repeat apply reachable_step; try exact I.
    apply reachable_mount. exact I.
  - reflexivity.
  - vm_compute. intros [H|[]]. discriminate.
Defined.

(** X10: in any state of either file, a click, a drag start, a live
    transform and typing in the overlay input never touch the object list,
    the log or the cursor: what they change (selection, drag flag, global
    style, edit buffer) is not recorded and cannot be undone. *)
Theorem view_events_keep_document (f : source_file) (s : State) (e : event) :
  is_view_event e = true ->
  let s' := step (component f) s e in
  textNodes s' = textNodes s
  /\ history s' = history s /\ historyIndex s' = historyIndex s.
Proof.
  intros V. cbv zeta.
  assert (existsb sets_textNodes (component f s e) = false) as T.
  { destruct f, e; try discriminate; unfold_handlers; guard_cases; reflexivity. }
  assert (is_mutation e = true) as M by (destruct e; try discriminate; auto).
  unfold step, dispatch. rewrite T.
  split; [now apply commit_textNodes_frame|]. split.
  - apply commit_history_frame. apply handler_keeps_history.
  - apply commit_historyIndex_frame. now apply handler_keeps_cursor.
Qed.

Lemma view_events_keep_document_witness :
  let s := run App.handler 1 [AddText 2] in
  let e := StageClick (on_text "1") in
  let s' := step (component App_tsx) s e in
  (selectedId s = Some "2" /\ selectedId s' = Some "1")
  /\ textNodes s' = textNodes s
  /\ history s' = history s /\ historyIndex s' = historyIndex s.
Proof.
  cbv zeta. split; [vm_compute; split; reflexivity|].
  apply (view_events_keep_document App_tsx). reflexivity.
Defined.

(** X11: in any state of either file, every event other than "Add Text",
    "Delete Selected", [undo()] and [redo()] leaves the ids of the object
    list as they are, in number and in order: moving, resizing, restyling
    and editing never add, remove or reorder objects. *)
Theorem only_add_and_delete_change_ids (f : source_file) (s : State) (e : event) :
  keeps_objects e = true ->
  map id (textNodes (step (component f) s e)) = map id (textNodes s).
Proof.
  intros K. unfold step. rewrite dispatch_textNodes.
  destruct f, e; try discriminate; unfold_handlers; handler_cases; simpl; auto;
    rewrite map_id_same; auto; same_ids.
Qed.

Lemma only_add_and_delete_change_ids_witness :
  let s := run Part000.handler 1 [AddText 2; AddText 3] in
  let e := TextDoubleClick (on_text "2") in
  map id (textNodes s) = ["1"; "2"; "3"]
  /\ map id (textNodes (step (component part_000) s e)) = map id (textNodes s).
Proof.
  cbv zeta. split; [vm_compute; reflexivity|].
  apply (only_add_and_delete_change_ids part_000). reflexivity.
Defined.

(** ** Style, selection and removal *)

Lemma style_after_change (f : source_file) (s : State) :
  (forall color,
     currentColor (step (component f) s (ColorChange color)) = color
     /\ currentFontSize (step (component f) s (ColorChange color))
        = currentFontSize s)
  /\ (forall size,
        currentFontSize (step (component f) s (FontSizeChange size)) = size
        /\ currentColor (step (component f) s (FontSizeChange size))
           = currentColor s).
Proof.
  split; intros v; unfold step.
  - destruct (dispatch_frame s (component f s (ColorChange v)))
      as (_ & _ & _ & -> & -> & _).
    destruct f; unfold_handlers; handler_cases; auto.
  - destruct (dispatch_frame s (component f s (FontSizeChange v)))
      as (_ & _ & _ & -> & -> & _).
    destruct f; unfold_handlers; handler_cases; auto.
Qed.

Lemma added_node (f : source_file) (s : State) (now : Z) :
  textNodes (step (component f) s (AddText now)) =
    textNodes s ++
    [mkTextNode (toString now) (num 50) (num 50) "Double click to edit"
       (currentFontSize s) (currentColor s) None None (Some false)]
  /\ selectedId (step (component f) s (AddText now)) = Some (toString now).
Proof.
  unfold step. rewrite dispatch_textNodes, dispatch_selectedId.
  destruct f; split; reflexivity.
Qed.

(** X12: in any state of either file, the colour or the size picked in
    the side panel is the style of the next object, whether or not an
    object was selected when it was picked: "Add Text" right after appends
    one object, not editing, with the clock reading as id, the picked value
    and the other global value, and selects it. *)
Theorem picked_style_goes_to_next_object (f : source_file) (s : State) (now : Z) :
  (forall color,
     let s1 := step (component f) s (ColorChange color) in
     let s2 := step (component f) s1 (AddText now) in
     exists n, textNodes s2 = textNodes s1 ++ [n]
       /\ id n = toString now /\ fontColor n = color
       /\ fontSize n = currentFontSize s /\ isEditing n = Some false
       /\ selectedId s2 = Some (id n))
  /\ (forall size,
        let s1 := step (component f) s (FontSizeChange size) in
        let s2 := step (component f) s1 (AddText now) in
        exists n, textNodes s2 = textNodes s1 ++ [n]
          /\ id n = toString now /\ fontSize n = size
          /\ fontColor n = currentColor s /\ isEditing n = Some false
          /\ selectedId s2 = Some (id n)).
Proof.
  destruct (style_after_change f s) as [Hc Hs].
  split; intros v; cbv zeta.
  - destruct (Hc v) as [E1 E2].
    destruct (added_node f (step (component f) s (ColorChange v)) now) as [-> ->].
    eexists. split; [reflexivity|]. simpl. auto 10.
  - destruct (Hs v) as [E1 E2].
    destruct (added_node f (step (component f) s (FontSizeChange v)) now)
      as [-> ->].
    eexists. split; [reflexivity|]. simpl. auto 10.
Qed.

(** X13: in any state of either file (in [part_000], with no drag under
    way), a click on the stage itself or on anything that is not a text node
    clears the selection; a click on a text node selects the target's id
    whether or not an object of the list has it, and takes over the colour
    and size of the first object with that id when there is one, leaving the
    global style alone when there is none. *)
Theorem click_selects_target (f : source_file) (s : State) (t : Target) :
  (f = part_000 -> isDragging s = false) ->
  let s' := step (component f) s (StageClick t) in
  (t_isStage t = true \/ t_name t <> "text-node" -> selectedId s' = None)
  /\ (t_isStage t = false -> t_name t = "text-node" ->
      selectedId s' = Some (t_id t)
      /\ (forall node,
            find (fun n => (id n =? t_id t)%string) (textNodes s) = Some node ->
            currentColor s' = fontColor node
            /\ currentFontSize s' = fontSize node)
      /\ (~ In (t_id t) (map id (textNodes s)) ->
          currentColor s' = currentColor s
          /\ currentFontSize s' = currentFontSize s)).
Proof.
  intros Hd. cbv zeta. unfold step.
  destruct (dispatch_frame s (component f s (StageClick t)))
    as (_ & -> & _ & -> & -> & _).
  assert (isDragging s = false \/ f = App_tsx) as D
    by (destruct f; auto).
  split.
  - intros [H|H].
    + destruct f; unfold_handlers; rewrite H;
        destruct D as [D|D]; try discriminate; rewrite ?D; reflexivity.
    + apply String.eqb_neq in H.
      destruct f; unfold_handlers; rewrite H;
        destruct D as [D|D]; try discriminate; rewrite ?D;
        destruct (t_isStage t); reflexivity.
  - intros Hs Hn. apply String.eqb_eq in Hn.
    split; [|split].
    + destruct f; unfold_handlers; rewrite Hs, Hn;
        destruct D as [D|D]; try discriminate; rewrite ?D;
        guard_cases; reflexivity.
    + intros node Hf.
      destruct f; unfold_handlers; rewrite Hs, Hn, Hf;
        destruct D as [D|D]; try discriminate; rewrite ?D; simpl; auto.
    + intros Hid. pose proof (find_no_match _ _ Hid) as Hf.
      destruct f; unfold_handlers; rewrite Hs, Hn, Hf;
        destruct D as [D|D]; try discriminate; rewrite ?D; simpl; auto.
Qed.

Lemma click_selects_target_witness :
  let s := run Part000.handler 1 [AddText 2; FontSizeChange (num 30)] in
  let s' := step (component part_000) s (StageClick (on_text "1")) in
  (currentFontSize s = num 30 /\ currentFontSize s' = num 20)
  /\ selectedId s' = Some "1".
Proof.
  cbv zeta. split; [vm_compute; split; reflexivity|].
  refine (proj1 (proj2 (click_selects_target part_000
            (run Part000.handler 1 [AddText 2; FontSizeChange (num 30)])
            (on_text "1") _) _ _)).
  - intros _. vm_compute. reflexivity.
  - reflexivity.
  - reflexivity.
Defined.

(** X14: in any state of either file, "Delete Selected" with no selection
    (or an empty id) changes nothing; with the non-empty id [sid] selected
    it removes every object with that id and no other, clears the selection,
    and with it the style controls and the transformer leave the view. *)
Theorem delete_removes_selected_only (f : source_file) (s : State) :
  (truthy (selectedId s) = false -> step (component f) s DeleteSelected = s)
  /\ (forall sid, selectedId s = Some sid -> sid <> "" ->
      let s' := step (component f) s DeleteSelected in
      (forall n, In n (textNodes s') <-> In n (textNodes s) /\ id n <> sid)
      /\ selectedId s' = None
      /\ showControls s' = false /\ showTransformer s' = false).
Proof.
  split.
  - intros H. unfold step, dispatch.
    destruct f; unfold_handlers; rewrite H; reflexivity.
  - intros sid Hsel Hsid. cbv zeta.
    assert (selectedId (step (component f) s DeleteSelected) = None) as Es.
    { unfold step. rewrite dispatch_selectedId.
      destruct f; unfold_handlers; rewrite Hsel, (truthy_Some sid Hsid);
        reflexivity. }
    split; [|split; [exact Es|]].
    + intros n. unfold step. rewrite dispatch_textNodes.
      assert (nodes_after (component f s DeleteSelected) (textNodes s) =
              filter (fun node => negb (id node =? sid)%string) (textNodes s))
        as ->.
      { destruct f; unfold_handlers; rewrite Hsel, (truthy_Some sid Hsid);
          reflexivity. }
      rewrite filter_In, negb_true_iff, String.eqb_neq. tauto.
    + unfold showControls, showTransformer. rewrite Es. auto.
Qed.

Lemma delete_removes_selected_only_witness :
  let s := run App.handler 1 [AddText 2; AddText 3; StageClick (on_text "2")] in
  let s' := step (component App_tsx) s DeleteSelected in
  map id (textNodes s') = ["1"; "3"]
  /\ ((forall n, In n (textNodes s') <-> In n (textNodes s) /\ id n <> "2")
      /\ selectedId s' = None
      /\ showControls s' = false /\ showTransformer s' = false).
Proof.
  cbv zeta. split; [vm_compute; reflexivity|].
  refine (proj2 (delete_removes_selected_only App_tsx
            (run App.handler 1 [AddText 2; AddText 3; StageClick (on_text "2")]))
            "2" _ _).
  - vm_compute. reflexivity.
  - discriminate.
Defined.

(** ** The drag flag of [part_000] *)

(** X15: in any state of [part_000], once a drag has started the next
    click on the stage is swallowed (it only clears the flag, whatever it
    hit: selection and global style stay as they were) and a double click
    does nothing at all; a drag end clears the flag, so a click that comes
    after the drag end is handled as usual. *)
Theorem drag_suppresses_clicks (s : State) (t : Target) :
  let d := step (component part_000) s DragStart in
  isDragging d = true
  /\ step (component part_000) d (StageClick t) =
       mkState (textNodes s) (selectedId s) (editText s) (currentColor s)
         (currentFontSize s) (history s) (historyIndex s) false
  /\ step (component part_000) d (TextDoubleClick t) = d
  /\ isDragging (step (component part_000) d (DragEnd t)) = false
  /\ step (component part_000)
       (step (component part_000) d (DragEnd t)) (StageClick t)
     = step (component part_000)
         (step (component part_000) s (DragEnd t)) (StageClick t).
Proof.
  cbv zeta.
  assert (step (component part_000) (step (component part_000) s DragStart)
            (DragEnd t)
          = step (component part_000) s (DragEnd t)) as E by reflexivity.
  split; [reflexivity|]. split; [reflexivity|]. split; [reflexivity|].
  split; [|now rewrite E].
  rewrite E. unfold step.
  destruct (dispatch_frame s (component part_000 s (DragEnd t)))
    as (_ & _ & _ & _ & _ & ->).
  reflexivity.
Qed.

(** ** An edit session in [part_000] *)

Lemma existsb_editing_false (l : list TextNode) :
  (forall n, In n l -> editing n = false) -> existsb editing l = false.
Proof.
  intros H. induction l as [|a l IH]; simpl; auto.
  rewrite (H a) by now left. apply IH. intros n Hn. apply H. now right.
Qed.

(** X16: in any state of [part_000] with no drag under way, a double
    click on an object of the list with a non-empty id opens the overlay
    input, takes every object with that id off the canvas, marks exactly
    those as editing and stages the text of the first of them; the blur (or
    Enter) that follows writes the input's value, or the staged text when
    that value is empty or missing, into them and leaves no object editing,
    so the overlay closes whatever the flags were before. *)
Theorem edit_session_opens_and_closes (s : State) (t : Target) (node : TextNode)
  (value : option string) :
  isDragging s = false ->
  find (fun n => (id n =? t_id t)%string) (textNodes s) = Some node ->
  t_id t <> "" ->
  let s1 := step (component part_000) s (TextDoubleClick t) in
  let s2 := step (component part_000) s1 (InputBlur value) in
  (showInput s1 = true /\ editText s1 = text node
   /\ (forall n, In n (textNodes s1) ->
       isEditing n = Some (id n =? t_id t)%string)
   /\ (forall n, In n (renderedTexts s1) -> id n <> t_id t))
  /\ (showInput s2 = false
      /\ forall n, In n (textNodes s2) -> id n = t_id t ->
         text n = js_or value (text node)).
Proof.
  intros Hd Hf Hid. cbv zeta.
  set (s1 := step (component part_000) s (TextDoubleClick t)).
  assert (textNodes s1 =
          map (fun n => if (id n =? t_id t)%string
                        then spread_isEditing n true
                        else spread_isEditing n false) (textNodes s)) as Et.
  { unfold s1, step. rewrite dispatch_textNodes.
    unfold_handlers. now rewrite Hd, Hf. }
  assert (selectedId s1 = Some (t_id t) /\ editText s1 = text node
          /\ currentColor s1 = fontColor node
          /\ currentFontSize s1 = fontSize node) as (Es & Ee & Ec & Efs).
  { unfold s1, step.
    destruct (dispatch_frame s (component part_000 s (TextDoubleClick t)))
      as (_ & -> & -> & -> & -> & _).
    unfold_handlers. rewrite Hd, Hf. simpl. auto. }
  assert (forall n, In n (textNodes s1) ->
          isEditing n = Some (id n =? t_id t)%string) as Hflag.
  { intros n Hn. rewrite Et in Hn. apply in_map_iff in Hn.
    destruct Hn as (m & <- & _).
    destruct (id m =? t_id t)%string eqn:E; simpl; now rewrite E. }
  split; [split; [|split; [exact Ee|split; [exact Hflag|]]]|split].
  - unfold showInput. apply existsb_exists.
    apply find_some in Hf. destruct Hf as [Hin Heq].
    exists (spread_isEditing node true). split; [|reflexivity].
    rewrite Et. apply in_map_iff. exists node. now rewrite Heq.
  - intros n Hn. unfold renderedTexts in Hn. apply filter_In in Hn.
    destruct Hn as [Hn Hne]. apply Hflag in Hn.
    unfold editing in Hne. rewrite Hn in Hne.
    destruct (id n =? t_id t)%string eqn:E; [discriminate|].
    now apply String.eqb_neq.
  - unfold showInput, step. rewrite dispatch_textNodes.
    unfold_handlers. rewrite Es, (truthy_Some _ Hid). simpl.
    apply existsb_editing_false. intros n Hn.
    apply in_map_iff in Hn. destruct Hn as (m & <- & Hm).
    destruct (id m =? t_id t)%string eqn:E; [reflexivity|].
    apply Hflag in Hm. unfold editing. now rewrite Hm, E.
  - intros n Hn Hn'. unfold step in Hn. rewrite dispatch_textNodes in Hn.
    unfold_handlers. rewrite Es, (truthy_Some _ Hid) in Hn. simpl in Hn.
    apply in_map_iff in Hn. destruct Hn as (m & <- & Hm).
    destruct (id m =? t_id t)%string eqn:E.
    + simpl. now rewrite Ee.
    + apply String.eqb_neq in E. contradiction.
Qed.

Lemma edit_session_opens_and_closes_witness :
  let s := run Part000.handler 1 [AddText 2; DragEnd (dragged_to "2" 200 200)] in
  let s1 := step (component part_000) s (TextDoubleClick (on_text "1")) in
  let s2 := step (component part_000) s1 (InputBlur (Some "Hello")) in
  map text (textNodes s2) = ["Hello"; "Double click to edit"]
  /\ (showInput s1 = true /\ editText s1 = "Double click to edit"
      /\ (forall n, In n (textNodes s1) -> isEditing n = Some (id n =? "1")%string)
      /\ (forall n, In n (renderedTexts s1) -> id n <> "1"))
  /\ (showInput s2 = false
      /\ forall n, In n (textNodes s2) -> id n = "1" ->
         text n = js_or (Some "Hello") "Double click to edit").
Proof.
  cbv zeta. split; [vm_compute; reflexivity|].
  apply (edit_session_opens_and_closes
           (run Part000.handler 1 [AddText 2; DragEnd (dragged_to "2" 200 200)])
           (on_text "1") (default_node 1) (Some "Hello")).
  - vm_compute. reflexivity.
  - vm_compute. reflexivity.
  - discriminate.
Defined.

(** ** Committing twice *)

Lemma state_eta (s : State) :
  mkState (textNodes s) (selectedId s) (editText s) (currentColor s)
    (currentFontSize s) (history s) (historyIndex s) (isDragging s) = s.
Proof. now destruct s. Qed.

Lemma map_commit_idem (sid u c : string) (fs : number) (l : list TextNode) :
  let g := fun node =>
             if is_selected (Some sid) (id node)
             then spread_commit node u c fs else node in
  map g (map g l) = map g l.
Proof.
  cbv zeta. rewrite map_map. apply map_ext. intros n. simpl.
  destruct (id n =? sid)%string eqn:E; simpl; now rewrite E.
Qed.

Lemma js_or_again (v v' : option string) (buffer : string) :
  v' = None \/ v' = v -> js_or v' (js_or v buffer) = js_or v buffer.
Proof.
  intros [->| ->]; [reflexivity|].
  destruct v as [w|]; simpl; auto.
  destruct (w =? "")%string eqn:E; simpl; now rewrite ?E.
Qed.

Lemma falsy_selection (s : State) :
  truthy (selectedId s) = false ->
  selectedId s = None \/ selectedId s = Some "".
Proof.
  destruct (selectedId s) as [sid|]; simpl; auto.
  intros H. apply negb_false_iff, String.eqb_eq in H. subst. auto.
Qed.

(** X17: in any state of either file, committing an edit twice in a row
    is the same as committing it once: when Enter has run the blur handler,
    the blur that follows (with the input gone, or still holding the same
    value) changes nothing and adds no entry to the log. *)
Theorem commit_twice_is_commit_once (f : source_file) (s : State)
  (value value' : option string) :
  value' = None \/ value' = value ->
  step (component f) (step (component f) s (InputBlur value)) (InputBlur value')
  = step (component f) s (InputBlur value).
Proof.
  intros Hv.
  destruct (truthy (selectedId s)) eqn:T.
  2:{ assert (step (component f) s (InputBlur value) = s) as E.
      { unfold step, dispatch.
        destruct (falsy_selection s T) as [N|N];
          destruct f; unfold_handlers; rewrite N; reflexivity. }
      rewrite E. unfold step, dispatch.
      destruct (falsy_selection s T) as [N|N];
        destruct f; unfold_handlers; rewrite N; reflexivity. }
  destruct (selectedId s) as [sid|] eqn:Hsel; [|discriminate].
  assert ((sid =? "")%string = false) as Hsid
    by (simpl in T; now apply negb_true_iff in T).
  set (s1 := step (component f) s (InputBlur value)).
  set (u := match f with
            | part_000 => js_or value (editText s)
            | App_tsx => editText s
            end).
  assert (textNodes s1 =
          map (fun node => if is_selected (Some sid) (id node)
                           then spread_commit node u (currentColor s)
                                  (currentFontSize s)
                           else node) (textNodes s)) as Et.
  { unfold s1, step. rewrite dispatch_textNodes.
    destruct f; unfold_handlers; rewrite Hsel; simpl; rewrite Hsid; reflexivity. }
  assert (selectedId s1 = Some sid
          /\ editText s1 = u
          /\ currentColor s1 = currentColor s
          /\ currentFontSize s1 = currentFontSize s) as (Es & Ee & Ec & Efs).
  { unfold s1, step.
    destruct (dispatch_frame s (component f s (InputBlur value)))
      as (_ & -> & -> & -> & -> & _).
    destruct f; unfold_handlers; rewrite Hsel; simpl; rewrite Hsid; simpl; auto. }
  assert (hist_ok s1) as Hs1.
  { unfold s1, step, dispatch.
    assert (existsb sets_textNodes (component f s (InputBlur value)) = true) as ->.
    { destruct f; unfold_handlers; rewrite Hsel; simpl; rewrite Hsid; reflexivity. }
    apply effect_hist_ok. }
  pose proof (map_commit_idem sid u (currentColor s) (currentFontSize s)
                (textNodes s)) as Hidem.
  cbv zeta in Hidem. rewrite <- Et in Hidem.
  clearbody s1. clear Et.
  unfold step, dispatch.
  destruct f; unfold_handlers; rewrite Es, Ee, Ec, Efs; simpl; rewrite Hsid; simpl.
  - unfold u in *. rewrite (js_or_again value value' (editText s) Hv).
    simpl in Hidem. rewrite Hidem, <- Ee, state_eta.
    now apply effect_idle.
  - unfold u in *. simpl in Hidem.
    change (fun node : TextNode =>
              if (id node =? sid)%string
              then spread_updates node
                     (mkPartial (Some (editText s)) (Some (currentColor s))
                        (Some (currentFontSize s)) (Some false))
              else node)
      with (fun node : TextNode =>
              if (id node =? sid)%string
              then spread_commit node (editText s) (currentColor s)
                     (currentFontSize s)
              else node).
    rewrite Hidem, state_eta.
    now apply effect_idle.
Qed.

Lemma commit_twice_is_commit_once_witness :
  let s := run Part000.handler 1
             [TextDoubleClick (on_text "1"); InputChange "Hello"] in
  let once := step (component part_000) s (InputBlur (Some "Hello")) in
  (map text (textNodes once) = ["Hello"] /\ historyIndex once = 3)
  /\ step (component part_000) once (InputBlur None) = once.
Proof.
  cbv zeta. split; [vm_compute; split; reflexivity|].
  apply (commit_twice_is_commit_once part_000). now left.
Defined.

(** ** The transformer's bound box *)

Lemma number_ltb_false (a b : number) : number_ltb a b = false -> (b <= a)%Qc.
Proof.
  unfold number_ltb. intros H. apply negb_false_iff in H.
  now apply Qle_bool_iff in H.
Qed.

Lemma number_ltb_true (a b : number) : number_ltb a b = true -> ~ (b <= a)%Qc.
Proof.
  unfold number_ltb. intros H Hle. apply negb_true_iff in H.
  apply Qle_bool_iff in Hle. unfold Qcle in *. congruence.
Qed.

(** X18: [boundBoxFunc] lets a new box through exactly when its width and
    height are both at least 5 and otherwise keeps the old box, so through
    any sequence of resize proposals a box that is at least 5 by 5 stays at
    least 5 by 5. *)
Theorem boundBoxFunc_keeps_minimum (oldBox : Box) (proposals : list Box) :
  (forall newBox,
     ((num 5 <= b_width newBox)%Qc /\ (num 5 <= b_height newBox)%Qc ->
      boundBoxFunc oldBox newBox = newBox)
     /\ (~ ((num 5 <= b_width newBox)%Qc /\ (num 5 <= b_height newBox)%Qc) ->
         boundBoxFunc oldBox newBox = oldBox))
  /\ ((num 5 <= b_width oldBox)%Qc -> (num 5 <= b_height oldBox)%Qc ->
      let box := fold_left boundBoxFunc proposals oldBox in
      (num 5 <= b_width box)%Qc /\ (num 5 <= b_height box)%Qc).
Proof.
  split.
  - intros newBox. unfold boundBoxFunc.
    destruct (number_ltb (b_width newBox) (num 5)) eqn:Ew;
      destruct (number_ltb (b_height newBox) (num 5)) eqn:Eh; simpl;
      try apply number_ltb_true in Ew; try apply number_ltb_true in Eh;
      try apply number_ltb_false in Ew; try apply number_ltb_false in Eh;
      split; intros H; tauto.
  - cbv zeta. revert oldBox.
    induction proposals as [|newBox rest IH]; intros oldBox Hw Hh; simpl; auto.
    apply IH; unfold boundBoxFunc;
      destruct (number_ltb (b_width newBox) (num 5)) eqn:Ew;
      destruct (number_ltb (b_height newBox) (num 5)) eqn:Eh; simpl; auto;
      now apply number_ltb_false.
Qed.

Lemma boundBoxFunc_keeps_minimum_witness :
  let box0 := mkBox (num 50) (num 50) (num 100) (num 20) (num 0) in
  let thin := mkBox (num 50) (num 50) (num 3) (num 20) (num 0) in
  let small := mkBox (num 50) (num 50) (num 40) (num 8) (num 0) in
  let box := fold_left boundBoxFunc [thin; small; thin] box0 in
  box = small /\ (num 5 <= b_width box)%Qc /\ (num 5 <= b_height box)%Qc.
Proof.
  cbv zeta. split; [vm_compute; reflexivity|].
  refine (proj2 (boundBoxFunc_keeps_minimum _ _) _ _);
    vm_compute; discriminate.
Defined.

(** ** What is on the canvas *)

Lemma canvas_and_overlay (l : list TextNode) :
  (List.length (filter (fun node => negb (editing node)) l)
   + List.length (filter editing l) = List.length l)%nat.
Proof.
  induction l as [|a l IH]; simpl; auto.
  destruct (editing a); simpl; lia.
Qed.

Lemma one_editing (l : list TextNode) :
  (List.length (filter editing l) <= 1)%nat ->
  List.length (filter editing l) = if existsb editing l then 1%nat else 0%nat.
Proof.
  induction l as [|a l IH]; simpl; auto.
  destruct (editing a); simpl; auto.
  intros H. assert (List.length (filter editing l) = 0%nat) as E by lia.
  rewrite E. reflexivity.
Qed.

(** X19: in every state [part_000] reaches while the clock reading of each
    "Add Text" is not yet an id of the list, at most one object is editing,
    and every object is either drawn on the canvas or is the one object
    under the overlay input: the canvas holds all objects when the overlay
    is closed and all but one when it is open. *)
Theorem canvas_or_overlay (s : State) :
  reachable (component part_000) fresh_add s ->
  at_most_one_editing (textNodes s)
  /\ (List.length (renderedTexts s) + (if showInput s then 1 else 0)
      = List.length (textNodes s))%nat.
Proof.
  intros R. destruct (Part000_at_most_one_editing s R) as [H _].
  split; [exact H|].
  unfold renderedTexts, showInput.
  rewrite <- (one_editing _ H). apply canvas_and_overlay.
Qed.

Lemma canvas_or_overlay_witness :
  let s := run Part000.handler 1
             [AddText 2; AddText 3; TextDoubleClick (on_text "1");
              TextDoubleClick (on_text "3")] in
  map id (renderedTexts s) = ["1"; "2"]
  /\ at_most_one_editing (textNodes s)
  /\ (List.length (renderedTexts s) + (if showInput s then 1 else 0)
      = List.length (textNodes s))%nat.
Proof.
  cbv zeta. split; [vm_compute; reflexivity|].
  apply canvas_or_overlay.
  unfold run. simpl fold_left.
  repeat apply reachable_step; try exact I;
    try (vm_compute; intros H; repeat destruct H as [H|H]; discriminate || exact H).
  apply reachable_mount. simpl. tauto.
Defined.

Lemma find_selected (sid : string) (l : list TextNode) :
  In sid (map id l) ->
  exists n, find (fun n => is_selected (Some sid) (id n)) l = Some n
            /\ In n l /\ id n = sid.
Proof.
  intros H. apply in_map_iff in H. destruct H as (m & Hm & Hin).
  destruct (find (fun n => is_selected (Some sid) (id n)) l) as [n|] eqn:E.
  - exists n. apply find_some in E as E'. destruct E' as [Hn Hs].
    simpl in Hs. apply String.eqb_eq in Hs. auto.
  - exfalso. apply (find_none _ _ E) in Hin. simpl in Hin.
    rewrite Hm, String.eqb_refl in Hin. discriminate.
Qed.

(** X20: in every state [part_000] reaches while clicks on a text node
    land on nodes of the list, [selectedId] is [null] or the id of an object
    of the list, and whenever the transformer is rendered the selected
    object is one of those drawn on the canvas. *)
Theorem transformer_has_its_node (s : State) :
  reachable (component part_000) click_on_node s ->
  selection_valid s
  /\ (showTransformer s = true ->
      exists n, In n (renderedTexts s) /\ selectedId s = Some (id n)).
Proof.
  intros R. pose proof (Part000_selection_valid s R) as V.
  split; [exact V|].
  unfold showTransformer, selection_valid in *.
  destruct (selectedId s) as [sid|]; [|discriminate].
  intros H. apply andb_prop in H. destruct H as [_ H].
  destruct (find_selected sid (textNodes s) V) as (n & Hf & Hin & Hid).
  rewrite Hf in H. exists n. split; [|now rewrite Hid].
  unfold renderedTexts. apply filter_In. auto.
Qed.

Lemma transformer_has_its_node_witness :
  let s := run Part000.handler 1 [AddText 2; StageClick (on_text "1")] in
  showTransformer s = true
  /\ selection_valid s
  /\ (showTransformer s = true ->
      exists n, In n (renderedTexts s) /\ selectedId s = Some (id n)).
Proof.
  cbv zeta. split; [vm_compute; reflexivity|].
  apply transformer_has_its_node.
  unfold run. simpl fold_left.
  repeat apply reachable_step; try exact I.
  - apply reachable_mount. exact I.
  - intros _ _. vm_compute. auto.
Defined.

(** ** The two files side by side *)

Lemma map_find_none (tid : string) (g : TextNode -> TextNode) (l : list TextNode) :
  find (fun n => (id n =? tid)%string) l = None ->
  map (fun node => if (id node =? tid)%string then g node else node) l = l.
Proof.
  intros H. apply map_no_match. intros Hin.
  apply in_map_iff in Hin. destruct Hin as (m & Hm & Hin).
  apply (find_none _ _ H) in Hin. simpl in Hin.
  rewrite Hm, String.eqb_refl in Hin. discriminate.
Qed.



(** ** Ids under an advancing clock *)

Lemma toString_inj (a b : Z) : toString a = toString b -> a = b.
Proof.
  unfold toString. intros H.
  assert (forall z, NilZero.int_of_string (NilZero.string_of_int (Z.to_int z))
                    = Some (Z.to_int z)) as P.
  { intros z. apply NilZero.isi; destruct z; simpl; try discriminate;
      intros [= E]; now apply (DecimalPos.Unsigned.to_uint_nonnil p). }
  pose proof (P a) as Pa. rewrite H, P in Pa.
  injection Pa as E. symmetry. now apply DecimalZ.to_int_inj.
Qed.

Lemma toString_nonempty (a : Z) : toString a <> "".
Proof.
  unfold toString. destruct a as [|p|p]; simpl; try discriminate.
  pose proof (DecimalPos.Unsigned.to_uint_nonnil p) as N.
  unfold NilZero.string_of_uint. destruct (Pos.to_uint p); simpl;
    congruence || discriminate.
Qed.

Lemma ids_before_weaken (c c' : Z) (nodes : list TextNode) :
  c <= c' -> ids_before c nodes -> ids_before c' nodes.
Proof.
  intros Hc H i Hi. destruct (H i Hi) as (t & Ht & ->).
  exists t. split; [lia | reflexivity].
Qed.

Lemma ids_before_filter (c : Z) (p : TextNode -> bool) (nodes : list TextNode) :
  ids_before c nodes -> ids_before c (filter p nodes).
Proof.
  intros H i Hi. apply H. apply in_map_iff in Hi.
  destruct Hi as (m & <- & Hm). apply filter_In in Hm. apply in_map. tauto.
Qed.

Lemma ids_before_step (f : source_file) (c : Z) (s : State) (e : event) :
  (forall now, e <> AddText now) ->
  ids_before c (textNodes s) -> Forall (ids_before c) (history s) ->
  ids_before c (nodes_after (component f s e) (textNodes s)).
Proof.
  intros Hne Hlive Hlog.
  destruct f, e; try (now contradiction (Hne now));
    unfold_handlers; handler_cases; simpl; auto;
    try match goal with
    | E : index _ _ = Some ?entry |- ids_before _ (cloneDeep ?entry) =>
        exact (index_Forall (ids_before c) _ _ _ Hlog E)
    | |- ids_before _ (filter _ _) => now apply ids_before_filter
    | |- ids_before _ (map _ _) =>
        unfold ids_before; rewrite map_id_same; [assumption | same_ids]
    end.
Qed.

Lemma clock_invariant (f : source_file) (clock : Z) (s : State) :
  reachable_clock (component f) clock s ->
  reachable (component f) fresh_add s
  /\ ids_before clock (textNodes s)
  /\ Forall (ids_before clock) (history s).
Proof.
  induction 1 as [now|clock s now R IH Hlt|clock s e R IH Hne].
  - split; [apply reachable_mount; simpl; tauto|].
    rewrite mount_state. simpl. split.
    + intros i [<-|[]]. exists now. split; [lia | reflexivity].
    + repeat constructor.
      * intros i [].
      * intros i [<-|[]]. exists now. split; [lia | reflexivity].
  - destruct IH as (Rf & Hlive & Hlog).
    assert (ids_before now
              (textNodes (step (component f) s (AddText now)))) as Hn.
    { destruct (added_node f s now) as [-> _].
      intros i Hi. rewrite map_app in Hi. apply in_app_or in Hi.
      destruct Hi as [Hi|[<-|[]]].
      - apply (ids_before_weaken clock now (textNodes s)); [lia | exact Hlive | exact Hi].
      - exists now. split; [lia | reflexivity]. }
    split; [|split; [exact Hn|]].
    + apply reachable_step; auto. simpl. intros Hin.
      destruct (Hlive _ Hin) as (t & Ht & E).
      apply toString_inj in E. lia.
    + unfold step in *. apply dispatch_keeps_log; auto.
      * apply handler_keeps_history.
      * eapply Forall_impl; [|exact Hlog].
        intros entry. apply ids_before_weaken. lia.
  - destruct IH as (Rf & Hlive & Hlog).
    pose proof (ids_before_step f clock s e Hne Hlive Hlog) as Hn.
    unfold step. rewrite <- dispatch_textNodes in Hn.
    split; [|split; [exact Hn|]].
    + apply reachable_step; auto.
      destruct e; simpl; auto. now contradiction (Hne now).
    + apply dispatch_keeps_log; auto. apply handler_keeps_history.
Qed.

(** X22: [Date.now().toString()] gives different strings for different
    readings and never the empty string; so in every state either file
    reaches while each "Add Text" reads the clock later than every earlier
    one, the ids of the live list are pairwise distinct and non-empty,
    also after [undo()] and [redo()] have brought back older lists. *)
Theorem advancing_clock_gives_distinct_ids (f : source_file) (clock : Z) (s : State) :
  reachable_clock (component f) clock s ->
  NoDup (map id (textNodes s))
  /\ (forall i, In i (map id (textNodes s)) -> i <> "")
  /\ (forall a b, toString a = toString b -> a = b).
Proof.
  intros R. destruct (clock_invariant f clock s R) as (Rf & Hlive & _).
  split; [now destruct (ids_unique_reachable f s Rf)|].
  split; [|exact toString_inj].
  intros i Hi. destruct (Hlive i Hi) as (t & _ & ->).
  apply toString_nonempty.
Qed.

Lemma advancing_clock_gives_distinct_ids_witness :
  let s := run App.handler 1 [AddText 2; AddText 5; Undo; Undo; AddText 7] in
  map id (textNodes s) = ["1"; "7"]
  /\ NoDup (map id (textNodes s))
  /\ (forall i, In i (map id (textNodes s)) -> i <> "")
  /\ (forall a b, toString a = toString b -> a = b).
Proof.
  cbv zeta. split; [vm_compute; reflexivity|].
  apply (advancing_clock_gives_distinct_ids App_tsx 7).
  unfold run. simpl fold_left.
  apply clock_add with (clock := 5); [|lia].
  apply clock_other; [|discriminate].
  apply clock_other; [|discriminate].
  apply clock_add with (clock := 2); [|lia].
  apply clock_add with (clock := 1); [|lia].
  apply clock_mount.
Defined.

(** ** What each mutation leaves alone *)

Lemma map_proj_same {B : Type} (proj : TextNode -> B) (g : TextNode -> TextNode)
  (l : list TextNode) :
  (forall n, proj (g n) = proj n) -> map proj (map g l) = map proj l.
Proof.
  intros Hg. rewrite map_map. apply map_ext. exact Hg.
Qed.

Ltac footprint :=
  unfold step; rewrite dispatch_textNodes;
  match goal with
  | f : source_file |- _ =>
      destruct f; unfold_handlers; handler_cases; simpl; auto;
      apply map_proj_same; same_ids
  end.

(** X23: in any state of either file, each mutation writes its own fields
    and no others, on every object: a drag end only the position, a colour
    change only the colour, a size change only the font size, a transform
    end only position, font size and box, a double click only the editing
    flag, and a blur only text, font size, colour and editing flag. *)
Theorem mutation_footprints (f : source_file) (s : State) :
  (forall t, map but_position (textNodes (step (component f) s (DragEnd t)))
             = map but_position (textNodes s))
  /\ (forall c, map but_fontColor (textNodes (step (component f) s (ColorChange c)))
                = map but_fontColor (textNodes s))
  /\ (forall z, map but_fontSize (textNodes (step (component f) s (FontSizeChange z)))
                = map but_fontSize (textNodes s))
  /\ (forall t, map but_geometry (textNodes (step (component f) s (TransformEnd t)))
                = map but_geometry (textNodes s))
  /\ (forall t, map but_isEditing (textNodes (step (component f) s (TextDoubleClick t)))
                = map but_isEditing (textNodes s))
  /\ (forall v, map but_committed (textNodes (step (component f) s (InputBlur v)))
                = map but_committed (textNodes s)).
Proof.
  repeat split; intros; footprint.
Qed.

(** X24: in any state of either file, a transform end leaves every object
    that has the target's id at the target's position, with the box the
    target reports scaled by its scale factors, and with a font size of at
    least 5, whatever the font size was and whatever the scale is. *)
Theorem resize_clamps_target (f : source_file) (s : State) (t : Target) (n : TextNode) :
  In n (textNodes (step (component f) s (TransformEnd t))) ->
  id n = t_id t ->
  (num 5 <= fontSize n)%Qc
  /\ x n = t_x t /\ y n = t_y t
  /\ width n = Some (t_width t * t_scaleX t)%Qc
  /\ height n = Some (t_height t * t_scaleY t)%Qc.
Proof.
  unfold step. rewrite dispatch_textNodes. intros Hin Hid.
  assert (In n (map (fun node =>
            if (id node =? t_id t)%string
            then spread_transform node (t_x t) (t_y t)
                   (Math_max (num 5) (fontSize node * t_scaleX t)%Qc)
                   (t_width t * t_scaleX t)%Qc (t_height t * t_scaleY t)%Qc
            else node) (textNodes s))) as Hm.
  { destruct f; unfold_handlers; simpl in Hin; auto.
    destruct (find _ (textNodes s)) eqn:F; simpl in Hin; auto.
    now rewrite map_find_none. }
  apply in_map_iff in Hm. destruct Hm as (m & <- & _).
  destruct (id m =? t_id t)%string eqn:E; simpl in *.
  - repeat split; auto. apply Math_max_floor.
  - apply String.eqb_neq in E. contradiction.
Qed.

Lemma resize_clamps_target_witness :
  let tiny := mkTarget false "text-node" "1" (num 7) (num 9)
                (Q2Qc (1 # 100)) (Q2Qc (1 # 2)) (num 100) (num 20) in
  let s := run App.handler 1 [FontSizeChange (num 3)] in
  let s' := step (component App_tsx) s (TransformEnd tiny) in
  let n := nth 0 (textNodes s') (default_node 0) in
  (map fontSize (textNodes s) = [num 3] /\ fontSize n = num 5)
  /\ ((num 5 <= fontSize n)%Qc
      /\ x n = num 7 /\ y n = num 9
      /\ width n = Some (num 100 * Q2Qc (1 # 100))%Qc
      /\ height n = Some (num 20 * Q2Qc (1 # 2))%Qc).
Proof.
  cbv zeta. split; [vm_compute; split; reflexivity|].
  apply (resize_clamps_target App_tsx
           (run App.handler 1 [FontSizeChange (num 3)])
           (mkTarget false "text-node" "1" (num 7) (num 9)
              (Q2Qc (1 # 100)) (Q2Qc (1 # 2)) (num 100) (num 20))).
  - vm_compute. left. reflexivity.
  - vm_compute. reflexivity.
Defined.


(** ** Where the two files go their own way *)

(** X26: in every state [part_000] reaches, an [undo()] with the cursor
    above 0 and a [redo()] with the cursor below the tail leave nothing
    selected, so that neither the style controls nor the transformer are
    rendered after a travel in the log. *)
Theorem Part000_time_travel_drops_selection (s : State) :
  reachable (component part_000) any_event s ->
  (0 < historyIndex s ->
   let u := step (component part_000) s Undo in
   selectedId u = None /\ showControls u = false /\ showTransformer u = false)
  /\ (historyIndex s < Z.of_nat (List.length (history s)) - 1 ->
      let r := step (component part_000) s Redo in
      selectedId r = None /\ showControls r = false /\ showTransformer r = false).
Proof.
  intros R. destruct (Part000_undo_redo_clear_selection s R) as [Hu Hr].
  split; intros Hc; cbv zeta; unfold showControls, showTransformer.
  - rewrite (Hu Hc). auto.
  - rewrite (Hr Hc). auto.
Qed.

Lemma Part000_time_travel_drops_selection_witness :
  let s := run Part000.handler 1 [AddText 2; Undo; StageClick (on_text "1")] in
  let u := step (component part_000) s Undo in
  let r := step (component part_000) s Redo in
  (selectedId s = Some "1" /\ showTransformer s = true)
  /\ (selectedId u = None /\ showControls u = false /\ showTransformer u = false)
  /\ (selectedId r = None /\ showControls r = false /\ showTransformer r = false).
Proof.
  cbv zeta.
  assert (reachable (component part_000) any_event
            (run Part000.handler 1 [AddText 2; Undo; StageClick (on_text "1")]))
    as R.
  { unfold run. simpl fold_left.
    repeat apply reachable_step; try exact I.
    apply reachable_mount. exact I. }
  split; [vm_compute; split; reflexivity|].
  split.
  - apply (proj1 (Part000_time_travel_drops_selection _ R)).
    vm_compute. reflexivity.
  - apply (proj2 (Part000_time_travel_drops_selection _ R)).
    vm_compute. reflexivity.
Defined.

(** X27: in any state of [App.tsx] the blur (or Enter) handler does not
    look at the input element: whatever value it holds the step is the
    same, and with a non-empty id selected it writes the edit buffer
    [editText], empty or not, with the current global font size and colour
    into every object with that id, clears its editing flag and leaves the
    other objects as they are. *)
Theorem App_blur_reads_buffer_only (s : State) (value value' : option string) :
  step (component App_tsx) s (InputBlur value)
  = step (component App_tsx) s (InputBlur value')
  /\ (forall sid, selectedId s = Some sid -> sid <> "" ->
      Forall2 (committed sid (editText s) s) (textNodes s)
        (textNodes (step (component App_tsx) s (InputBlur value)))).
Proof.
  split; [reflexivity|].
  intros sid Hsel Hsid. now apply App_commitEdit_writes_editText.
Qed.

Lemma App_blur_reads_buffer_only_witness :
  let s := run App.handler 1 [TextDoubleClick (on_text "1"); InputChange ""] in
  let s' := step (component App_tsx) s (InputBlur (Some "typed elsewhere")) in
  (editText s = "" /\ map text (textNodes s') = [""])
  /\ Forall2 (committed "1" (editText s) s) (textNodes s) (textNodes s').
Proof.
  cbv zeta. split; [vm_compute; split; reflexivity|].
  refine (proj2 (App_blur_reads_buffer_only
            (run App.handler 1 [TextDoubleClick (on_text "1"); InputChange ""])
            (Some "typed elsewhere") None) "1" _ _).
  - vm_compute. reflexivity.
  - discriminate.
Defined.

(** * The page *)

(** ** The slider *)

Lemma reachable_weaken (f : source_file) (ok ok' : State -> event -> Prop)
  (s : State) :
  (forall st e, ok st e -> ok' st e) ->
  reachable (component f) ok s -> reachable (component f) ok' s.
Proof.
  intros Hw. induction 1 as [now H0|st e R IH Hok].
  - apply reachable_mount. now apply Hw.
  - apply reachable_step; auto.
Qed.

Lemma num_le (a b : Z) : a <= b -> (num a <= num b)%Qc.
Proof.
  intros H. unfold num, Qcle.
  change (Qred (inject_Z a) <= Qred (inject_Z b))%Q.
  rewrite !Qred_correct. now rewrite <- Zle_Qle.
Qed.

Lemma num_inj (a b : Z) : num a = num b -> a = b.
Proof.
  unfold num. intros H.
  assert (Qred (inject_Z a) == Qred (inject_Z b))%Q as E.
  { change (Q2Qc (inject_Z a) == Q2Qc (inject_Z b))%Q. now rewrite H. }
  rewrite !Qred_correct in E. now apply inject_Z_injective.
Qed.

Lemma slider_value_floor (size : number) : slider_value size -> (num 5 <= size)%Qc.
Proof.
  intros (k & Hk & ->). apply num_le. lia.
Qed.

(** The slider delivers neither 3 nor anything else below 10. *)
Lemma slider_value_range (k : Z) : slider_value (num k) <-> 10 <= k <= 72.
Proof.
  split.
  - intros (k' & Hk & E). apply num_inj in E. lia.
  - intros H. now exists k.
Qed.

(** C1: in either file, after each event of any sequence (add, move,
    resize, live resize, colour and size changes through the side panel,
    double click, commit of an edit, remove, clicks, undo and redo), with
    the font-size handler called as the slider calls it, the [fontSize] of
    every object of the document is at least 5. *)
Theorem font_size_floor (f : source_file) (s : State) :
  reachable (component f) from_slider s ->
  forall n, In n (textNodes s) -> (num 5 <= fontSize n)%Qc.
Proof.
  intros R.
  assert (reachable (component f) slider_ok s) as R'.
  { apply (reachable_weaken f from_slider); auto.
    intros st [] H; simpl in *; auto. now apply slider_value_floor. }
  destruct (fonts_ok_reachable f s R') as [H _].
  unfold fonts_ok in H. now rewrite Forall_forall in H.
Qed.

Lemma font_size_floor_witness :
  let shrink :=
    mkTarget false "text-node" "1" (num 50) (num 50)
      (Q2Qc (1 # 10)) (Q2Qc (1 # 10)) (num 100) (num 20) in
  let s := run Part000.handler 1
             [FontSizeChange (num 10); TransformEnd shrink; AddText 2;
              FontSizeChange (num 72); TextDoubleClick (on_text "1");
              InputBlur (Some "Hello"); Undo] in
  map fontSize (textNodes s) = [num 5; num 72]
  /\ forall n, In n (textNodes s) -> (num 5 <= fontSize n)%Qc.
Proof.
  cbv zeta. split.
  - vm_compute. reflexivity.
  - apply (font_size_floor part_000).
    unfold run. simpl fold_left.
    repeat apply reachable_step; try exact I.
    + apply reachable_mount. exact I.
    + apply slider_value_range. lia.
    + apply slider_value_range. lia.
Defined.

(** ** The overlay input *)

Lemma js_or_same (w : string) : js_or (Some w) w = w.
Proof. simpl. now destruct (w =? "")%string. Qed.

Lemma editText_frame (f : source_file) (s : State) (e : event) :
  keeps_editText e = true -> editText (step (component f) s e) = editText s.
Proof.
  intros K. unfold step.
  destruct (dispatch_frame s (component f s e)) as (_ & _ & -> & _).
  destruct f, e; try discriminate; unfold_handlers; handler_cases; reflexivity.
Qed.

Lemma kept_value (v : option string) (s s' : State) :
  match v with Some w => w = editText s | None => True end ->
  editText s' = editText s ->
  match v with Some w => w | None => editText s' end = editText s'.
Proof.
  destruct v as [w|]; auto. intros -> ->. reflexivity.
Qed.

Lemma page_step_sync (f : source_file) (p : Page) (e : event) :
  page_sync p -> page_sync (page_step f p e).
Proof.
  destruct p as [s v]. unfold page_sync, page_step, input_after. simpl.
  intros Hs.
  destruct (showInput _); [|exact I].
  destruct f; [|reflexivity].
  destruct e;
    try (apply (kept_value v s); [exact Hs | now apply (editText_frame part_000)]).
  - (* double click *)
    unfold step.
    destruct (dispatch_frame s (component part_000 s (TextDoubleClick e)))
      as (_ & _ & -> & _).
    unfold_handlers.
    destruct (isDragging s); [now apply (kept_value v s)|].
    destruct (find _ (textNodes s)); [reflexivity | now apply (kept_value v s)].
  - (* typing *)
    symmetry. apply (onChange_syncs_editText part_000).
  - (* blur *)
    unfold step.
    destruct (dispatch_frame s (component part_000 s (InputBlur v)))
      as (_ & _ & -> & _).
    unfold_handlers.
    destruct (negb (truthy (selectedId s))); [now apply (kept_value v s)|].
    destruct v as [w|]; [|reflexivity].
    cbn [commit fold_left apply_action editText]. subst w.
    symmetry. apply js_or_same.
Qed.

(** On every page the component reaches (either file), the overlay input,
    when there is one, holds the edit buffer. *)
Lemma page_sync_reachable (f : source_file) (p : Page) :
  page_reachable f p -> page_sync p.
Proof.
  induction 1 as [now|p e R IH].
  - exact I.
  - now apply page_step_sync.
Qed.

Lemma page_state_reachable (f : source_file) (p : Page) :
  page_reachable f p -> reachable (component f) any_event (page_state p).
Proof.
  induction 1 as [now|p e R IH].
  - apply reachable_mount. exact I.
  - unfold page_step. simpl. apply reachable_step; [exact IH | exact I].
Qed.

Lemma ids_nonempty_step (f : source_file) (s : State) (e : event) :
  ids_nonempty (textNodes s) -> Forall ids_nonempty (history s) ->
  ids_nonempty (nodes_after (component f s e) (textNodes s)).
Proof.
  intros Hlive Hlog.
  destruct f, e; unfold_handlers; handler_cases; simpl; auto;
    try match goal with
    | E : index _ _ = Some ?entry |- ids_nonempty (cloneDeep ?entry) =>
        exact (index_Forall ids_nonempty _ _ _ Hlog E)
    | |- ids_nonempty (filter _ _) =>
        intros i Hi; apply Hlive; apply in_map_iff in Hi;
        destruct Hi as (m & <- & Hm); apply filter_In in Hm;
        apply in_map; tauto
    | |- ids_nonempty (_ ++ _) =>
        intros i Hi; rewrite map_app in Hi; apply in_app_or in Hi;
        destruct Hi as [Hi|[<-|[]]];
        [now apply Hlive | apply toString_nonempty]
    | |- ids_nonempty (map _ _) =>
        unfold ids_nonempty; rewrite map_id_same; [assumption | same_ids]
    end.
Qed.

Lemma ids_nonempty_reachable (f : source_file) (s : State) :
  reachable (component f) any_event s ->
  ids_nonempty (textNodes s) /\ Forall ids_nonempty (history s).
Proof.
  induction 1 as [now _|s e R IH Hok].
  - rewrite mount_state. simpl. split.
    + intros i [<-|[]]. apply toString_nonempty.
    + repeat constructor.
      * intros i [].
      * intros i [<-|[]]. apply toString_nonempty.
  - destruct IH as (Hlive & Hlog).
    pose proof (ids_nonempty_step f s e Hlive Hlog) as Hn.
    unfold step. rewrite <- dispatch_textNodes in Hn.
    split; [exact Hn|].
    apply dispatch_keeps_log; auto. apply handler_keeps_history.
Qed.

(** C7: on every page the component reaches (either file), with the id
    [sid] of an object selected and the overlay input holding [newText],
    empty or not, the blur (or Enter) handler writes exactly [newText] into
    the content of every object with that id, gives it the current global
    font size and colour and clears its [isEditing] flag; the other objects
    stay as they are. *)
Theorem commitEdit_writes_newText (f : source_file) (p : Page)
  (sid newText : string) (value : option string) :
  page_reachable f p ->
  selectedId (page_state p) = Some sid ->
  In sid (map id (textNodes (page_state p))) ->
  inputValue p = Some newText ->
  let p' := page_step f p (InputBlur value) in
  Forall2 (committed sid newText (page_state p))
    (textNodes (page_state p)) (textNodes (page_state p')).
Proof.
  intros R Hsel Hin Hv. cbv zeta.
  pose proof (page_sync_reachable f p R) as Hs.
  unfold page_sync in Hs. rewrite Hv in Hs.
  destruct (ids_nonempty_reachable f _ (page_state_reachable f p R)) as [Hne _].
  pose proof (Hne sid Hin) as Hsid.
  unfold page_step. simpl. rewrite Hv.
  destruct f.
  - apply commitEdit_writes_overlay_text; auto.
  - rewrite Hs. now apply App_commitEdit_writes_editText.
Qed.

Lemma commitEdit_writes_newText_witness :
  let typed := page_run part_000 1
                 [AddText 2; DragEnd (dragged_to "2" 200 200);
                  TextDoubleClick (on_text "1"); InputChange "Hello"] in
  let cleared := page_step part_000 typed (InputChange "") in
  let staged := page_run App_tsx 1 [TextDoubleClick (on_text "1")] in
  (inputValue typed = Some "Hello" /\ inputValue cleared = Some ""
   /\ inputValue staged = Some "Double click to edit")
  /\ (map text (textNodes (page_state (page_step part_000 cleared (InputBlur None))))
      = [""; "Double click to edit"])
  /\ Forall2 (committed "1" "Hello" (page_state typed))
       (textNodes (page_state typed))
       (textNodes (page_state (page_step part_000 typed (InputBlur None))))
  /\ Forall2 (committed "1" "" (page_state cleared))
       (textNodes (page_state cleared))
       (textNodes (page_state (page_step part_000 cleared (InputBlur None))))
  /\ Forall2 (committed "1" "Double click to edit" (page_state staged))
       (textNodes (page_state staged))
       (textNodes (page_state (page_step App_tsx staged (InputBlur None)))).
Proof.
  cbv zeta.
  assert (page_reachable part_000
            (page_run part_000 1
               [AddText 2; DragEnd (dragged_to "2" 200 200);
                TextDoubleClick (on_text "1"); InputChange "Hello"])) as Rt.
  { unfold page_run. simpl fold_left.
    repeat apply page_reachable_step. apply page_reachable_mount. }
  assert (page_reachable App_tsx
            (page_run App_tsx 1 [TextDoubleClick (on_text "1")])) as Rs.
  { unfold page_run. simpl fold_left.
    repeat apply page_reachable_step. apply page_reachable_mount. }
  split; [vm_compute; split; [|split]; reflexivity|].
  split; [vm_compute; reflexivity|].
  split; [|split].
  - apply (commitEdit_writes_newText part_000 _ "1" "Hello" None Rt).
    + vm_compute. reflexivity.
    + vm_compute. left. reflexivity.
    + vm_compute. reflexivity.
  - apply (commitEdit_writes_newText part_000 _ "1" "" None
             (page_reachable_step part_000 _ (InputChange "") Rt)).
    + vm_compute. reflexivity.
    + vm_compute. left. reflexivity.
    + vm_compute. reflexivity.
  - apply (commitEdit_writes_newText App_tsx _ "1" "Double click to edit" None Rs).
    + vm_compute. reflexivity.
    + vm_compute. left. reflexivity.
    + vm_compute. reflexivity.
Defined.
